(** * dirsearch: the calibration engine (lib/core/scanner.py) and the scan
      controller (lib/controller/controller.py), embedded and verified.

    Conventions of the embedding.
    - A Python [str] is a [string] (8-bit characters); [bytes] decoded as
      iso8859-1 is the same [string].
    - A Python [float] is a binary64 [float] of the kernel, so [+], [-], [<]
      and [>=] are the IEEE operations CPython performs.
    - A Python [int] is a [Z]; [None] is [None] of an [option].
    - An exception is a value of [exn] on the left of a sum; a method that
      mutates [self] returns the new object. *)

From Stdlib Require Import ZArith List Bool Ascii String Lia Floats Uint63.
Import ListNotations.

Set Warnings "-inexact-float".

Open Scope list_scope.
Open Scope string_scope.

(** ** Exceptions and results *)

Inductive exn : Type :=
| RequestException
| AttributeError
| TypeError
| IndexError
| ReError
| SkipTargetInterrupt
| SystemExit (code : Z)
| KeyboardInterrupt
| EOFError.

Inductive result (A : Type) : Type :=
| Ok (a : A)
| Raise (e : exn).
Arguments Ok {A} a.
Arguments Raise {A} e.

Definition rbind {A B} (r : result A) (k : A -> result B) : result B :=
  match r with
  | Ok a => k a
  | Raise e => Raise e
  end.

Notation "x <- r ;; k" := (rbind r (fun x => k))
  (at level 61, r at next level, right associativity).

(** Truthiness of an optional string: [None] and [""] are falsy. *)
Definition truthy_str (o : option string) : bool :=
  match o with
  | Some (String _ _) => true
  | _ => false
  end.

(** Truthiness of an optional integer: [None] and [0] are falsy. *)
Definition truthy_int (o : option Z) : bool :=
  match o with
  | Some z => negb (z =? 0)%Z
  | None => false
  end.

(** ** The [str] methods the two files use *)

Module PyStr.

Definition startswith (s p : string) : bool := String.prefix p s.

Definition endswith (s p : string) : bool :=
  let n := String.length s in
  let k := String.length p in
  (k <=? n)%nat && String.eqb (substring (n - k) k s) p.

(** [sub in s] *)
Fixpoint contains (s sub : string) : bool :=
  String.prefix sub s ||
  match s with
  | EmptyString => false
  | String _ s' => contains s' sub
  end.

(** [s.count(c)] for a one-character [c] *)
Fixpoint count (c : ascii) (s : string) : nat :=
  match s with
  | EmptyString => 0
  | String x s' => (if Ascii.eqb x c then 1 else 0) + count c s'
  end.

(** [s.split(c)] for a one-character separator: never the empty list *)
Fixpoint split (c : ascii) (s : string) : list string :=
  match s with
  | EmptyString => [EmptyString]
  | String x s' =>
      if Ascii.eqb x c then EmptyString :: split c s'
      else match split c s' with
           | h :: t => String x h :: t
           | [] => [String x EmptyString]
           end
  end.

(** [sep.join(l)] *)
Fixpoint join (sep : string) (l : list string) : string :=
  match l with
  | [] => EmptyString
  | [x] => x
  | x :: l' => x ++ sep ++ join sep l'
  end.

(** [s.replace(old, new)]: the occurrences of [old] are found from the
    left and do not overlap; [skip] counts the characters of an occurrence
    still to be dropped. *)
Fixpoint replace_from (skip : nat) (old new s : string) : string :=
  match s with
  | EmptyString => EmptyString
  | String c s' =>
      match skip with
      | S k => replace_from k old new s'
      | O =>
          if String.prefix old s
          then new ++ replace_from (String.length old - 1) old new s'
          else String c (replace_from 0 old new s')
      end
  end.

Fixpoint intersperse (new s : string) : string :=
  match s with
  | EmptyString => new
  | String c s' => new ++ String c (intersperse new s')
  end.

Definition replace (old new s : string) : string :=
  match old with
  | EmptyString => intersperse new s
  | _ => replace_from 0 old new s
  end.

(** [s.rstrip(c)] for a one-character [c] *)
Fixpoint rstrip (c : ascii) (s : string) : string :=
  match s with
  | EmptyString => EmptyString
  | String x s' =>
      match rstrip c s' with
      | EmptyString => if Ascii.eqb x c then EmptyString else String x EmptyString
      | r => String x r
      end
  end.

Definition is_space (c : ascii) : bool :=
  let n := nat_of_ascii c in
  (n =? 32)%nat || ((9 <=? n)%nat && (n <=? 13)%nat).

Fixpoint lstrip_ws (s : string) : string :=
  match s with
  | String x s' => if is_space x then lstrip_ws s' else s
  | EmptyString => EmptyString
  end.

Fixpoint rstrip_ws (s : string) : string :=
  match s with
  | EmptyString => EmptyString
  | String x s' =>
      match rstrip_ws s' with
      | EmptyString => if is_space x then EmptyString else String x EmptyString
      | r => String x r
      end
  end.

(** [s.strip()] *)
Definition strip (s : string) : string := rstrip_ws (lstrip_ws s).

(** [s[::-1]] *)
Fixpoint rev_onto (s acc : string) : string :=
  match s with
  | EmptyString => acc
  | String c s' => rev_onto s' (String c acc)
  end.

Definition reversed (s : string) : string := rev_onto s EmptyString.

(** [x in l] for a list of strings *)
Definition mem (x : string) (l : list string) : bool :=
  existsb (String.eqb x) l.

(** [s.lower()] on 8-bit characters: A to Z and the capital letters of
    Latin-1 move up by 32. *)
Definition lower_char (c : ascii) : ascii :=
  let n := nat_of_ascii c in
  if ((65 <=? n) && (n <=? 90) ||
      (192 <=? n) && (n <=? 222) && negb (n =? 215))%nat
  then ascii_of_nat (n + 32)
  else c.

Fixpoint lower (s : string) : string :=
  match s with
  | EmptyString => EmptyString
  | String c s' => String (lower_char c) (lower s')
  end.

End PyStr.

(** ** The fragment of Python's [re] that the scanner relies on

    [re.escape] is the one of CPython 3.7 and later.  The pattern syntax
    covered is: an ordinary character, a backslash before a character that is
    neither a letter nor a digit, [.], [^], [$], and a postfix [*] on a
    character or on [.].  A pattern outside this fragment has no parse. *)

Module Regex.

Definition special_chars : string :=
  String "009" (String "010" (String "011" (String "012" (String "013"
    "()[]{}?*+-|^$\.&~# ")))).

Fixpoint char_in (c : ascii) (s : string) : bool :=
  match s with
  | EmptyString => false
  | String x s' => Ascii.eqb x c || char_in c s'
  end.

Definition escape_char (c : ascii) : string :=
  if char_in c special_chars
  then String "\" (String c EmptyString)
  else String c EmptyString.

(** [re.escape(s)] *)
Fixpoint escape (s : string) : string :=
  match s with
  | EmptyString => EmptyString
  | String c s' => escape_char c ++ escape s'
  end.

Definition is_alnum (c : ascii) : bool :=
  let n := nat_of_ascii c in
  ((48 <=? n) && (n <=? 57) || (65 <=? n) && (n <=? 90) ||
   (97 <=? n) && (n <=? 122))%nat.

Inductive token : Type :=
| TChr (c : ascii)
| TDot
| TBol
| TEol
| TStar.

Definition unsupported_meta : string := "+?{}[]|()".

Fixpoint lex (s : string) : option (list token) :=
  match s with
  | EmptyString => Some []
  | String c s' =>
      if Ascii.eqb c "\" then
        match s' with
        | EmptyString => None
        | String d s'' =>
            if is_alnum d then None else option_map (cons (TChr d)) (lex s'')
        end
      else if Ascii.eqb c "." then option_map (cons TDot) (lex s')
      else if Ascii.eqb c "^" then option_map (cons TBol) (lex s')
      else if Ascii.eqb c "$" then option_map (cons TEol) (lex s')
      else if Ascii.eqb c "*" then option_map (cons TStar) (lex s')
      else if char_in c unsupported_meta then None
      else option_map (cons (TChr c)) (lex s')
  end.

Inductive item : Type :=
| Chr (c : ascii)
| Dot.

Inductive atom : Type :=
| One (i : item)
| Star (i : item)
| Bol
| Eol.

Definition item_of (t : token) : option item :=
  match t with
  | TChr c => Some (Chr c)
  | TDot => Some Dot
  | _ => None
  end.

(** A [*] repeats the item before it; with nothing to repeat (at the
    start, after an anchor, after another [*]) the pattern is rejected. *)
Fixpoint group (ts : list token) : option (list atom) :=
  match ts with
  | [] => Some []
  | TBol :: rest => option_map (cons Bol) (group rest)
  | TEol :: rest => option_map (cons Eol) (group rest)
  | TStar :: _ => None
  | TChr c :: TStar :: rest => option_map (cons (Star (Chr c))) (group rest)
  | TDot :: TStar :: rest => option_map (cons (Star Dot)) (group rest)
  | TChr c :: rest => option_map (cons (One (Chr c))) (group rest)
  | TDot :: rest => option_map (cons (One Dot)) (group rest)
  end.

Definition parse (p : string) : option (list atom) :=
  match lex p with
  | Some ts => group ts
  | None => None
  end.

Definition newline : ascii := "010".

(** [.] matches anything but a newline. *)
Definition item_ok (i : item) (c : ascii) : bool :=
  match i with
  | Chr x => Ascii.eqb x c
  | Dot => negb (Ascii.eqb c newline)
  end.

(** [$] matches at the end and just before a newline that ends the string. *)
Definition at_end (s : string) : bool :=
  match s with
  | EmptyString => true
  | String c EmptyString => Ascii.eqb c newline
  | _ => false
  end.

(** Backtracking match of the atoms [r] at the current position; [bol]
    says whether the position is the start of the subject. *)
Fixpoint match_here (r : list atom) (bol : bool) (s : string) : bool :=
  match r with
  | [] => true
  | Bol :: r' => bol && match_here r' bol s
  | Eol :: r' => at_end s && match_here r' bol s
  | One i :: r' =>
      match s with
      | String c s' => item_ok i c && match_here r' false s'
      | EmptyString => false
      end
  | Star i :: r' =>
      (fix star (bol : bool) (s : string) {struct s} : bool :=
         match_here r' bol s ||
         match s with
         | String c s' => item_ok i c && star false s'
         | EmptyString => false
         end) bol s
  end.

(** [re.match(pattern, subject) is not None]; [None] for a pattern outside
    the fragment. *)
Definition re_match (pattern subject : string) : option bool :=
  option_map (fun r => match_here r true subject) (parse pattern).

End Regex.


(** ** lib/core/scanner.py *)

Module Scanner.
Import PyStr.

(** What the scanner reads of a transport response.  [len] is
    [len(response)]: the class of the response is not part of the two
    files, so its length is carried as a field. *)
Record Response : Type := {
  status : Z;
  body : option string;
  redirect : option string;
  len : nat
}.

(** [thirdparty.sqlmap.DynamicContentParser], seen through the two members
    the scanner uses. *)
Record DynamicContentParser : Type := {
  comparisonRatio : float;
  compareTo : option string -> float
}.

(** The collaborators of the scanner.  The [n]-th call of
    [requester.request] and of [RandomUtils.randString] is indexed by [n],
    so two requests of one path may be answered differently. *)
Class World : Type := {
  request : nat -> string -> result Response;
  randString : nat -> string;
  newDynamicContentParser : string -> string -> string -> DynamicContentParser
}.

Record t : Type := {
  calibration : option string;
  suffix : string;
  prefix : string;
  tester : option unit;
  redirectRegExp : option string;
  invalidStatus : option Z;
  dynamicParser : option DynamicContentParser;
  ratio : float
}.

Definition set_invalidStatus (self : t) (v : option Z) : t :=
  {| calibration := calibration self; suffix := suffix self;
     prefix := prefix self; tester := tester self;
     redirectRegExp := redirectRegExp self; invalidStatus := v;
     dynamicParser := dynamicParser self; ratio := ratio self |}.

Definition set_redirectRegExp (self : t) (v : option string) : t :=
  {| calibration := calibration self; suffix := suffix self;
     prefix := prefix self; tester := tester self;
     redirectRegExp := v; invalidStatus := invalidStatus self;
     dynamicParser := dynamicParser self; ratio := ratio self |}.

Definition set_dynamicParser (self : t) (v : option DynamicContentParser) : t :=
  {| calibration := calibration self; suffix := suffix self;
     prefix := prefix self; tester := tester self;
     redirectRegExp := redirectRegExp self;
     invalidStatus := invalidStatus self;
     dynamicParser := v; ratio := ratio self |}.

Definition set_ratio (self : t) (v : float) : t :=
  {| calibration := calibration self; suffix := suffix self;
     prefix := prefix self; tester := tester self;
     redirectRegExp := redirectRegExp self;
     invalidStatus := invalidStatus self;
     dynamicParser := dynamicParser self; ratio := v |}.

(** [float("{0:.2f}".format(x))].  The format rounds the exact binary
    value to hundredths, ties to even; [float] of the digits is the
    binary64 nearest to that decimal, which is the correctly rounded
    quotient of the hundredths by 100 as long as the hundredths are below
    2^53.  Above that (and for an integral [x], zeros, infinities and NaN)
    the round trip returns [x]. *)
Definition round2 (x : float) : float :=
  match Prim2SF x with
  | S754_finite sgn m e =>
      if (0 <=? e)%Z then x
      else
        let n := (Zpos m * 100)%Z in
        let d := (2 ^ (- e))%Z in
        let q := (n / d)%Z in
        let r := (n mod d)%Z in
        let h := if (d <? 2 * r)%Z then (q + 1)%Z
                 else if (2 * r =? d)%Z
                      then (if Z.even q then q else (q + 1)%Z)
                      else q in
        if (h <? 2 ^ 53)%Z then
          let v := (PrimFloat.of_uint63 (Uint63.of_Z h) / 100)%float in
          if sgn then (- v)%float else v
        else x
  | _ => x
  end.

Definition placeholder : string := "DIRSEARCH_PATH".

(** The first loop of [generateRedirectRegExp]: the escaped common prefix,
    closed by [.*] where the two locations part. *)
Fixpoint regexp_front (firstLoc secondLoc regexp : string) : string :=
  match firstLoc, secondLoc with
  | String f firstLoc', String s secondLoc' =>
      if Ascii.eqb f s
      then regexp_front firstLoc' secondLoc' (regexp ++ Regex.escape_char f)
      else regexp ++ ".*"
  | _, _ => regexp
  end.

(** The second loop, over the two reversed locations. *)
Fixpoint regexp_back (firstRev secondRev end_ : string) : string :=
  match firstRev, secondRev with
  | String f firstRev', String s secondRev' =>
      if Ascii.eqb f s
      then regexp_back firstRev' secondRev' (Regex.escape_char f ++ end_)
      else end_
  | _, _ => end_
  end.

Definition generateRedirectRegExp
    (firstLoc firstPath secondLoc secondPath : string) : string :=
  let firstLoc := replace firstPath placeholder firstLoc in
  let secondLoc := replace secondPath placeholder secondLoc in
  let regexp := regexp_front firstLoc secondLoc "^" in
  let end_ :=
    if endswith regexp "*"
    then regexp_back (reversed firstLoc) (reversed secondLoc) ""
    else "" in
  regexp ++ end_ ++ "$".

Definition probePath (self : t) (rand : string) : string :=
  prefix self ++
  (if truthy_str (calibration self)
   then match calibration self with Some c => c | None => "" end
   else rand) ++
  suffix self.

(** The object [__init__] builds before it calls [setup]. *)
Definition fresh (calibration suffix prefix : option string) : t :=
  {| calibration := calibration;
     suffix := if truthy_str suffix
               then match suffix with Some x => x | None => "" end
               else "";
     prefix := if truthy_str prefix
               then match prefix with Some x => x | None => "" end
               else "";
     tester := None;
     redirectRegExp := None;
     invalidStatus := None;
     dynamicParser := None;
     ratio := 0.98%float |}.

Section WithWorld.
Context {W : World}.

Definition firstPath (self : t) : string := probePath self (randString 0).

Definition secondPath (self : t) : string :=
  probePath self (randString 1).

Definition setup (self : t) : result t :=
  firstResponse <- request 0 (firstPath self) ;;
  let self := set_invalidStatus self (Some (status firstResponse)) in
  if (status firstResponse =? 404)%Z then Ok self
  else
    secondResponse <- request 1 (secondPath self) ;;
    let self :=
      match redirect firstResponse, redirect secondResponse with
      | Some (String _ _ as l1), Some (String _ _ as l2) =>
          set_redirectRegExp self
            (Some (generateRedirectRegExp l1 (firstPath self)
                                          l2 (secondPath self)))
      | _, _ => self
      end in
    let self :=
      match body firstResponse, body secondResponse with
      | Some b1, Some b2 =>
          set_dynamicParser self
            (Some (newDynamicContentParser (firstPath self) b1 b2))
      | _, _ => set_dynamicParser self None
      end in
    match dynamicParser self with
    | None => Raise AttributeError
    | Some parser =>
        let baseRatio := round2 (comparisonRatio parser) in
        let baseRatio :=
          if (len firstResponse <? 2000)%nat
          then (baseRatio - 0.1)%float
          else baseRatio in
        if (baseRatio <? ratio self)%float
        then Ok (set_ratio self baseRatio)
        else Ok self
    end.

(** [Scanner(requester, calibration, suffix, prefix)] *)
Definition init (calibration suffix prefix : option string) : result t :=
  setup (fresh calibration suffix prefix).

End WithWorld.

(** The redirect test of [scan]: [None] when it is not performed (the local
    [redirectToInvalid] is then unbound), otherwise whether the location
    matched the pattern with the probed path substituted. *)
Definition redirectToInvalid (self : t) (path : string) (response : Response)
  : result (option bool) :=
  match redirectRegExp self, redirect response with
  | Some (String _ _ as rx), Some (String _ _ as loc) =>
      match Regex.re_match (replace placeholder (Regex.escape path) rx) loc with
      | Some m => Ok (Some m)
      | None => Raise ReError
      end
  | _, _ => Ok None
  end.

Definition Z_opt_eqb (o : option Z) (z : Z) : bool :=
  match o with
  | Some x => (x =? z)%Z
  | None => false
  end.

(** [scan(path, response)]: [true] is found. *)
Definition scan (self : t) (path : string) (response : Response) : result bool :=
  if Z_opt_eqb (invalidStatus self) (status response) && (status response =? 404)%Z
  then Ok false
  else if negb (Z_opt_eqb (invalidStatus self) (status response))
  then Ok true
  else
    checked <- redirectToInvalid self path response ;;
    match checked with
    | Some false => Ok true
    | _ =>
        match dynamicParser self with
        | None => Raise AttributeError
        | Some parser =>
            let r := compareTo parser (body response) in
            if (ratio self <=? r)%float then Ok false
            else if (match checked with Some _ => true | None => false end)
                    && (ratio self - 0.15 <=? r)%float
            then Ok false
            else Ok true
        end
    end.

End Scanner.


(** ** lib/controller/controller.py *)

Module Controller.
Import PyStr.

(** A probe result as the prober hands it to the callbacks. *)
Record Path : Type := {
  path : string;
  status : Z;
  response : Scanner.Response
}.

(** The command-line arguments and the filter configuration copied from
    them in [__init__]. *)
Record Settings : Type := {
  skip_on_status : list Z;
  excludeStatusCodes : list Z;
  includeStatusCodes : list Z;
  blacklists : list (Z * list string);
  excludeSizes : list string;
  minimumResponseSize : option Z;
  maximumResponseSize : option Z;
  excludeTexts : list string;
  excludeRegexps : list string;
  excludeRedirects : list string;
  recursive : bool;
  deep_recursive : bool;
  force_recursive : bool;
  recursionStatusCodes : list Z;
  recursion_depth : option Z;
  scanSubdirs : list string;
  excludeSubdirs : list string;
  full_url : bool;
  replay_proxy : option string;
  exit_on_error : bool;
  maxtime : option Z
}.

(** Calls on the output, the report, the transport and the prober, in the
    order made.  [Replay] is the request sent through the replay proxy;
    [SkippedTarget] is the error line "Skipped the target due to ... status
    code"; [Starting] is the warning line "[time] Starting: directory";
    [InLine] is the prompt of the pause menu. *)
Inductive event : Type :=
| StatusReport (p : string) (st : Z) (full : bool) (addedToQueue : bool)
| Replay (p proxy : string)
| AddResult (newPath : string) (st : Z)
| UpdateReport
| LastPath (p : string)
| AddConnectionError
| OutputError (msg : string)
| SkippedTarget (st : option Z)
| OutputWarning (msg : string)
| FuzzerStart (base : string)
| FuzzerPause
| FuzzerStop
| ReportCompleted
| Starting (dir : string)
| FuzzerResume
| InLine (msg : string)
| NewLine.

(** The mutable fields of the controller; [directories] is the FIFO queue,
    oldest entry first.  [baseUrl] is [requester.baseUrl].
    [report_completed] is [None] when [self.report] is [None], and otherwise
    holds the [completed] attribute of the report object. *)
Record State : Type := {
  directories : list string;
  doneDirs : list string;
  allJobs : Z;
  currentJob : Z;
  index : Z;
  currentDirectory : string;
  basePath : string;
  baseUrl : string;
  status_skip : option Z;
  exit_ : bool;
  report_completed : option bool;
  events : list event
}.

(** What the controller takes from outside the two files: [urljoin] of
    urllib, [FileUtils.size_human], and [re.search] / [re.match] on the
    patterns the user configured (as "is not None"). *)
Class Library : Type := {
  urljoin : string -> string -> string;
  size_human : nat -> string;
  re_search : string -> string -> bool;
  re_match : string -> string -> bool
}.

(** *** A state and exception monad for the methods *)

Definition M (A : Type) : Type := State -> result A * State.

Definition ret {A} (a : A) : M A := fun s => (Ok a, s).

Definition bind {A B} (m : M A) (k : A -> M B) : M B :=
  fun s => match m s with
           | (Ok a, s') => k a s'
           | (Raise e, s') => (Raise e, s')
           end.

Definition raise {A} (e : exn) : M A := fun s => (Raise e, s).

Definition lift {A} (r : result A) : M A := fun s => (r, s).

Definition get : M State := fun s => (Ok s, s).

Definition modify (f : State -> State) : M unit := fun s => (Ok tt, f s).

Definition emit (e : event) : M unit :=
  modify (fun s =>
    {| directories := directories s; doneDirs := doneDirs s;
       allJobs := allJobs s; currentJob := currentJob s; index := index s;
       currentDirectory := currentDirectory s; basePath := basePath s;
       baseUrl := baseUrl s; status_skip := status_skip s;
       exit_ := exit_ s;
     report_completed := report_completed s; events := (events s ++ [e])%list |}).

Definition exec {A} (m : M A) (s : State) : State := snd (m s).

Definition eval {A} (m : M A) (s : State) : result A := fst (m s).

Declare Scope ctl_scope.
Delimit Scope ctl_scope with ctl.
Notation "x <-- m ;; k" := (bind m (fun x => k))
  (at level 61, m at next level, right associativity) : ctl_scope.
Notation "m ;;; k" := (bind m (fun _ => k))
  (at level 61, right associativity) : ctl_scope.

(** *** Field updates *)

Definition bump_index (s : State) : State :=
  {| directories := directories s; doneDirs := doneDirs s;
     allJobs := allJobs s; currentJob := currentJob s;
     index := (index s + 1)%Z;
     currentDirectory := currentDirectory s; basePath := basePath s;
     baseUrl := baseUrl s; status_skip := status_skip s;
     exit_ := exit_ s;
     report_completed := report_completed s; events := events s |}.

Definition set_status_skip (v : option Z) (s : State) : State :=
  {| directories := directories s; doneDirs := doneDirs s;
     allJobs := allJobs s; currentJob := currentJob s; index := index s;
     currentDirectory := currentDirectory s; basePath := basePath s;
     baseUrl := baseUrl s; status_skip := v;
     exit_ := exit_ s;
     report_completed := report_completed s; events := events s |}.

Definition set_exit (v : bool) (s : State) : State :=
  {| directories := directories s; doneDirs := doneDirs s;
     allJobs := allJobs s; currentJob := currentJob s; index := index s;
     currentDirectory := currentDirectory s; basePath := basePath s;
     baseUrl := baseUrl s; status_skip := status_skip s;
     exit_ := v; report_completed := report_completed s;
     events := events s |}.

(** [self.report = None] and [self.report.completed = True] *)
Definition set_report (v : option bool) (s : State) : State :=
  {| directories := directories s; doneDirs := doneDirs s;
     allJobs := allJobs s; currentJob := currentJob s; index := index s;
     currentDirectory := currentDirectory s; basePath := basePath s;
     baseUrl := baseUrl s; status_skip := status_skip s;
     exit_ := exit_ s; report_completed := v; events := events s |}.

(** [self.directories.put(dir)] *)
Definition put (dir : string) (s : State) : State :=
  {| directories := (directories s ++ [dir])%list; doneDirs := doneDirs s;
     allJobs := allJobs s; currentJob := currentJob s; index := index s;
     currentDirectory := currentDirectory s; basePath := basePath s;
     baseUrl := baseUrl s; status_skip := status_skip s;
     exit_ := exit_ s;
     report_completed := report_completed s; events := events s |}.

(** The three statements that close the loop body of [addDirectory]. *)
Definition enqueue (dir : string) (s : State) : State :=
  {| directories := (directories s ++ [dir])%list;
     doneDirs := (doneDirs s ++ [dir])%list;
     allJobs := (allJobs s + 1)%Z;
     currentJob := currentJob s; index := index s;
     currentDirectory := currentDirectory s; basePath := basePath s;
     baseUrl := baseUrl s; status_skip := status_skip s;
     exit_ := exit_ s;
     report_completed := report_completed s; events := events s |}.

(** The head of [prepare]'s loop body: take the oldest directory. *)
Definition start_job (dir : string) (rest : list string) (s : State) : State :=
  {| directories := rest; doneDirs := doneDirs s;
     allJobs := allJobs s; currentJob := (currentJob s + 1)%Z; index := 0%Z;
     currentDirectory := dir; basePath := basePath s;
     baseUrl := baseUrl s; status_skip := status_skip s;
     exit_ := exit_ s;
     report_completed := report_completed s; events := events s |}.

Definition memZ (x : Z) (l : list Z) : bool := existsb (Z.eqb x) l.

(** The newline that opens the error lines. *)
Definition nl : string := String "010" "".

Fixpoint dict_get (k : Z) (d : list (Z * list string)) : option (list string) :=
  match d with
  | [] => None
  | (k', v) :: d' => if (k' =? k)%Z then Some v else dict_get k d'
  end.

Definition is_empty {A} (l : list A) : bool :=
  match l with [] => true | _ => false end.

(** *** Seeding the queue (the per-target part of [__init__]) *)

(** [for subdir in self.scanSubdirs: put(subdir)] followed by the [else]
    suite of the [for]: the loop has no [break], so the suite runs after
    every loop, whatever the list. *)
Definition seedDirectories (cfg : Settings) (s : State) : State :=
  put "" (fold_left (fun s subdir => put subdir s) (scanSubdirs cfg) s).

(** [self.allJobs = len(self.scanSubdirs) if self.scanSubdirs else 1] *)
Definition initialAllJobs (cfg : Settings) : Z :=
  if is_empty (scanSubdirs cfg) then 1%Z
  else Z.of_nat (List.length (scanSubdirs cfg)).

(** *** addDirectory *)

(** [path.split("?")[0].split("#")[0]] *)
Definition strip_query (p : string) : string :=
  hd "" (split "#" (hd "" (split "?" p))).

Definition withSlash (fullPath : string) : string :=
  if endswith fullPath "/" then fullPath else fullPath ++ "/".

(** The directories of the [deep_recursive] loop, one per slash of the
    path: [range(1, path.count("/") + 1)] is [seq 1 (count "/" p)]. *)
Definition deepDirs (currentDir p : string) : list string :=
  let fullPath := currentDir ++ p in
  map (fun i =>
         rstrip "/" (replace p "" fullPath ++
                     join "/" (firstn i (split "/" p))) ++ "/")
      (seq 1 (count "/" p)).

(** The directory of the [force_recursive] / [recursive] branches. *)
Definition leafDirs (cfg : Settings) (currentDir p : string) : list string :=
  let fullPath := currentDir ++ p in
  if force_recursive cfg then [withSlash fullPath]
  else if recursive cfg && endswith fullPath "/" then [fullPath]
  else [].

(** The list [dirs] that [addDirectory] builds, for the path already
    stripped of query and fragment. *)
Definition candidateDirs (cfg : Settings) (currentDir p : string) : list string :=
  List.app (if deep_recursive cfg then deepDirs currentDir p else [])
           (leafDirs cfg currentDir p).

Definition tooDeep (cfg : Settings) (dir : string) : bool :=
  truthy_int (recursion_depth cfg) &&
  match recursion_depth cfg with
  | Some d => (d <? Z.of_nat (count "/" dir))%Z
  | None => false
  end.

(** One turn of the loop [for dir in dirs]; the boolean is [added]. *)
Definition addOne (cfg : Settings) (acc : State * bool) (dir : string)
  : State * bool :=
  let (s, added) := acc in
  if mem dir (scanSubdirs cfg) then acc
  else if mem dir (doneDirs s) then acc
  else if tooDeep cfg dir then acc
  else (enqueue dir s, true).

Definition excluded (cfg : Settings) (p : string) : bool :=
  existsb (fun directory => startswith p directory) (excludeSubdirs cfg).

Definition addDirectory (cfg : Settings) (p : string) : M bool :=
  fun s =>
    let p := strip_query p in
    if excluded cfg p then (Ok false, s)
    else
      let (s', added) :=
        fold_left (addOne cfg) (candidateDirs cfg (currentDirectory s) p)
                  (s, false) in
      (Ok added, s').

(** *** addPort and addRedirectDirectory *)

Fixpoint set_nth (n : nat) (v : string) (l : list string) : list string :=
  match l, n with
  | [], _ => []
  | _ :: l', O => v :: l'
  | x :: l', S n' => x :: set_nth n' v l'
  end.

Definition addPort (url : string) : result string :=
  let chunks := split "/" url in
  match nth_error chunks 2 with
  | None => Raise IndexError
  | Some host =>
      if negb (contains host ":")
      then
        let port := if String.eqb (hd "" chunks) "http:" then ":80" else ":443" in
        Ok (join "/" (set_nth 2 (host ++ port) chunks))
      else Ok url
  end.

Section WithLibrary.
Context {L : Library}.
Variable cfg : Settings.

Open Scope ctl_scope.

Definition redirectOf (p : Path) : string :=
  match Scanner.redirect (response p) with
  | Some l => l
  | None => ""
  end.

Definition addRedirectDirectory (p : Path) : M bool :=
  s <-- get ;;
  let base := baseUrl s ++ basePath s ++ currentDirectory s ++ path p in
  redirectUrl <-- lift (addPort (urljoin (baseUrl s) (redirectOf p))) ;;
  if startswith redirectUrl (base ++ "/")
  then
    addDirectory cfg
      (replace (baseUrl s ++ basePath s ++ currentDirectory s) "" redirectUrl)
  else ret false.

(** *** The filters of matchCallback *)

Definition bodyLength (p : Path) : result Z :=
  match Scanner.body (response p) with
  | Some b => Ok (Z.of_nat (String.length b))
  | None => Raise TypeError
  end.

(** [a and b], with [b] evaluated only when [a] holds. *)
Definition and_then (a b : result bool) : result bool :=
  rbind a (fun x => if x then b else Ok false).

Definition statusKept (p : Path) : result bool :=
  Ok (negb (status p =? 0)%Z && negb (memZ (status p) (excludeStatusCodes cfg))).

Definition statusIncluded (p : Path) : result bool :=
  Ok (is_empty (includeStatusCodes cfg) || memZ (status p) (includeStatusCodes cfg)).

Definition notBlacklisted (p : Path) : result bool :=
  Ok match dict_get (status p) (blacklists cfg) with
     | None => true
     | Some l => is_empty l || negb (mem (path p) l)
     end.

Definition sizeKept (p : Path) : result bool :=
  if is_empty (excludeSizes cfg) then Ok true
  else rbind (bodyLength p) (fun n =>
         Ok (negb (mem (strip (size_human (Z.to_nat n))) (excludeSizes cfg)))).

Definition aboveMinimum (p : Path) : result bool :=
  match minimumResponseSize cfg with
  | Some m => if (m =? 0)%Z then Ok true
              else rbind (bodyLength p) (fun n => Ok (m <? n)%Z)
  | None => Ok true
  end.

Definition belowMaximum (p : Path) : result bool :=
  match maximumResponseSize cfg with
  | Some m => if (m =? 0)%Z then Ok true
              else rbind (bodyLength p) (fun n => Ok (n <? m)%Z)
  | None => Ok true
  end.

(** The condition of the big [if]. *)
Definition accepted (p : Path) : result bool :=
  and_then (statusKept p) (and_then (statusIncluded p)
    (and_then (notBlacklisted p) (and_then (sizeKept p)
      (and_then (aboveMinimum p) (belowMaximum p))))).

(** [body.decode('iso8859-1')] *)
Definition decoded (p : Path) : result string :=
  match Scanner.body (response p) with
  | Some b => Ok b
  | None => Raise AttributeError
  end.

Fixpoint textExcluded (texts : list string) (p : Path) : result bool :=
  match texts with
  | [] => Ok false
  | t :: texts' =>
      rbind (decoded p) (fun b =>
        if contains b t then Ok true else textExcluded texts' p)
  end.

Fixpoint regexpExcluded (regexps : list string) (p : Path) : result bool :=
  match regexps with
  | [] => Ok false
  | r :: regexps' =>
      rbind (decoded p) (fun b =>
        if re_search r b then Ok true else regexpExcluded regexps' p)
  end.

Definition redirectExcluded (p : Path) : bool :=
  existsb (fun r =>
             truthy_str (Scanner.redirect (response p)) &&
             (re_match r (redirectOf p) || contains (redirectOf p) r))
          (excludeRedirects cfg).

(** The three exclusion loops: [true] when one of them returns. *)
Definition excludedByContent (p : Path) : result bool :=
  rbind (textExcluded (excludeTexts cfg) p) (fun t =>
    if t then Ok true
    else rbind (regexpExcluded (excludeRegexps cfg) p) (fun r =>
      if r then Ok true else Ok (redirectExcluded p))).

Definition recursionEnabled (p : Path) : bool :=
  (recursive cfg || deep_recursive cfg || force_recursive cfg) &&
  (is_empty (recursionStatusCodes cfg) ||
   memZ (status p) (recursionStatusCodes cfg)).

(** The first element of [skip_on_status] equal to the status. *)
Definition skipStatus (p : Path) : option Z :=
  find (fun st => (status p =? st)%Z) (skip_on_status cfg).

(** The tail of [matchCallback]: [statusReport], the replay request,
    [self.report.addResult], which raises when [self.report] is [None], and
    [updateReport]. *)
Definition report (p : Path) (addedToQueue : bool) : M unit :=
  emit (StatusReport (path p) (status p) (full_url cfg) addedToQueue) ;;;
  (match replay_proxy cfg with
   | Some (String _ _ as proxy) => emit (Replay (path p) proxy)
   | _ => ret tt
   end) ;;;
  s <-- get ;;
  match report_completed s with
  | None => raise AttributeError
  | Some _ =>
      emit (AddResult (currentDirectory s ++ path p) (status p)) ;;;
      emit UpdateReport
  end.

Definition matchCallback (p : Path) : M unit :=
  modify bump_index ;;;
  match skipStatus p with
  | Some st => modify (set_status_skip (Some st))
  | None =>
      ok <-- lift (accepted p) ;;
      if negb ok then ret tt
      else
        out <-- lift (excludedByContent p) ;;
        if out then ret tt
        else
          addedToQueue <--
            (if recursionEnabled p
             then if truthy_str (Scanner.redirect (response p))
                  then addRedirectDirectory p
                  else addDirectory cfg (path p)
             else ret false) ;;
          report p addedToQueue
  end.

Definition notFoundCallback (p : string) : M unit :=
  modify bump_index ;;; emit (LastPath p).

(** [errorCallback]; it runs on a worker, where [exit(1)] ends that
    worker only. *)
Definition errorCallback (p msg : string) : M unit :=
  if exit_on_error cfg
  then modify (set_exit true) ;;; emit FuzzerStop ;;;
       emit (OutputError (nl ++ "Canceled due to an error")) ;;;
       raise (SystemExit 1)
  else emit AddConnectionError.

(** *** The polling loop and the pause menu, as a transition system

    The prober, the operator and the clock are outside the two files; what
    the controller sees of them is a sequence of observations:
    - a callback run by a worker;
    - a return of [fuzzer.wait(0.25)], with the seconds elapsed since the
      start, for the [maxtime] test;
    - the moment all workers have stopped, which ends the busy wait after
      [fuzzer.pause()] and the bounded wait of [handlePause];
    - the 300 turns of the bounded wait of [handlePause] running out;
    - a [KeyboardInterrupt] reaching the controller;
    - a line typed by the operator, read by [input()];
    - the end of the operator's input, on which [input()] raises
      [EOFError].
    An exception raised inside a callback ends that worker's call and
    leaves the controller running. *)

Inductive callback : Type :=
| OnMatch (p : Path)
| OnNotFound (p : string)
| OnError (p msg : string).

Inductive observation : Type :=
| Callback (c : callback)
| WaitReturns (done : bool) (elapsed : Z)
| ThreadsStopped
| SettleExpired
| Interrupt
| Input (option : string)
| EndOfInput.

(** Where the controller is: in the loop on [fuzzer.wait] ([Polling]); in
    the busy wait before the skip-target interrupt ([Pausing]); in
    [handlePause], waiting for the workers ([Settling]) or for an answer
    ([Asking]); or out of [processPaths]. *)
Inductive phase : Type :=
| Polling
| Pausing
| Settling
| Asking
| Finished (r : result unit).

(** [self.urlList], fixed by the constructor. *)
Variable urlList : list string.

Definition deliver (c : callback) (s : State) : State :=
  match c with
  | OnMatch p => exec (matchCallback p) s
  | OnNotFound p => exec (notFoundCallback p) s
  | OnError p msg => exec (errorCallback p msg) s
  end.

Definition timedOut (elapsed : Z) : bool :=
  match maxtime cfg with
  | Some m => negb (m =? 0)%Z && (m <? elapsed)%Z
  | None => false
  end.

(** The line [handlePause] prints before it reads an answer. *)
Definition prompt (s : State) : string :=
  "[q]uit / [c]ontinue" ++
  (if is_empty (directories s) then "" else " / [n]ext") ++
  (if (1 <? List.length urlList)%nat then " / [s]kip target" else "") ++
  ": ".

(** The head of [handlePause]. *)
Definition beginPause (s : State) : State :=
  exec (emit (OutputWarning "CTRL+C detected: Pausing threads, please wait...") ;;;
        emit FuzzerPause) s.

(** One turn of the menu loop of [handlePause] on the answer [option]. *)
Definition answer (option : string) (s : State) : phase * State :=
  let o := lower option in
  if String.eqb o "q" then
    (Finished (Raise (SystemExit 0)),
     exec (modify (set_exit true) ;;; emit FuzzerStop ;;;
           emit (OutputError (nl ++ "Canceled by the user")) ;;;
           emit UpdateReport) s)
  else if String.eqb o "c" then
    (Polling, exec (emit FuzzerResume) s)
  else if String.eqb o "n" && negb (is_empty (directories s)) then
    (Polling, exec (emit FuzzerStop) s)
  else if String.eqb o "s" && (1 <? List.length urlList)%nat then
    (Finished (Raise SkipTargetInterrupt), exec (emit NewLine) s)
  else
    (Asking, exec (emit (InLine (prompt s))) s).

(** One observation.  A [KeyboardInterrupt] inside the [try] of
    [processPaths] opens the pause menu; one inside [handlePause] leaves
    [processPaths], and so does the [EOFError] of [input()].  An observation that the current phase does not wait for
    changes nothing. *)
Definition step (ph : phase) (s : State) (o : observation) : phase * State :=
  match ph, o with
  | Finished r, _ => (Finished r, s)
  | _, Callback c => (ph, deliver c s)
  | (Polling | Pausing), Interrupt => (Settling, beginPause s)
  | (Settling | Asking), Interrupt => (Finished (Raise KeyboardInterrupt), s)
  | Polling, WaitReturns true _ => (Finished (Ok tt), s)
  | Polling, WaitReturns false elapsed =>
      if truthy_int (status_skip s)
      then (Pausing, exec (emit FuzzerPause) s)
      else if timedOut elapsed
      then (Finished (Raise (SystemExit 0)),
            exec (emit (OutputError
              (nl ++ "Canceled because the runtime exceeded the maximal set by user"))) s)
      else (Polling, s)
  | Pausing, ThreadsStopped =>
      (Finished (Raise SkipTargetInterrupt),
       exec (emit (SkippedTarget (status_skip s))) s)
  | Settling, (ThreadsStopped | SettleExpired) =>
      (Asking, exec (emit (InLine (prompt s))) s)
  | Asking, Input option => answer option s
  | Asking, EndOfInput => (Finished (Raise EOFError), s)
  | _, _ => (ph, s)
  end.

Fixpoint run (ph : phase) (s : State) (obs : list observation)
  : phase * State :=
  match obs with
  | [] => (ph, s)
  | o :: obs' => let (ph', s') := step ph s o in run ph' s' obs'
  end.

(** [processPaths] on the observations of one job; [None] when they end
    before the loop does. *)
Definition processPaths (obs : list observation) (s : State)
  : option (result unit * State) :=
  match run Polling s obs with
  | (Finished r, s') => Some (r, s')
  | _ => None
  end.

(** What happens to one job: [fuzzer.start()] raises a
    [RequestException], or it returns and the observations follow. *)
Inductive job : Type :=
| StartFails
| Started (obs : list observation).

(** The statements after the loop of [prepare]. *)
Definition closeReport (s : State) : result unit * State :=
  match report_completed s with
  | None => (Raise AttributeError, s)
  | Some _ =>
      (Ok tt,
       set_report None
         (exec (emit ReportCompleted ;;; emit UpdateReport)
               (set_report (Some true) s)))
  end.

(** [prepare]: one [job] per directory taken from the queue; [None] when
    the jobs given end before the queue does. *)
Fixpoint prepare (jobs : list job) (s : State)
  : option (result unit * State) :=
  match directories s with
  | [] => Some (closeReport s)
  | dir :: rest =>
      match jobs with
      | [] => None
      | j :: jobs' =>
          let s := start_job dir rest s in
          let s := exec (emit (Starting dir) ;;;
                         emit (FuzzerStart (basePath s ++ dir))) s in
          match j with
          | StartFails => Some (Raise RequestException, s)
          | Started obs =>
              match processPaths obs s with
              | Some (Ok _, s') => prepare jobs' s'
              | other => other
              end
          end
      end
  end.

End WithLibrary.

End Controller.

(** * Stand-ins for the collaborators, sample inputs, and the notions the
      statements use *)

Module ScannerFixtures.
Import PyStr Regex Scanner.

(** A comparator that only tells equal bodies from different ones. *)
Definition exactParser (b1 b2 : string) : DynamicContentParser :=
  {| comparisonRatio := if String.eqb b1 b2 then 1%float else 0%float;
     compareTo := fun b =>
       match b with
       | Some x => if String.eqb x b1 then 1%float else 0%float
       | None => 0%float
       end |}.

(** A comparator that answers [r] whatever the body. *)
Definition constParser (r : float) : DynamicContentParser :=
  {| comparisonRatio := 1%float; compareTo := fun _ => r |}.

(** A static server: every request is answered by [r]. *)
Definition staticWorld (r : Response) : World :=
  {| request := fun _ _ => Ok r;
     randString := fun n => match n with O => "aaaa" | _ => "bbbb" end;
     newDynamicContentParser := fun _ b1 b2 => exactParser b1 b2 |}.

Definition page (st : Z) (b : option string) (loc : option string) (n : nat)
  : Response :=
  {| status := st; body := b; redirect := loc; len := n |}.

Definition target404 : t :=
  set_invalidStatus (fresh None None None) (Some 404%Z).

Definition chars (p : string) : list token :=
  map TChr (list_ascii_of_string p).

Definition literals (p : string) : list atom :=
  map (fun c => One (Chr c)) (list_ascii_of_string p).

Definition starts_with_star (ts : list token) : bool :=
  match ts with
  | TStar :: _ => true
  | _ => false
  end.

Definition loginPattern : string :=
  generateRedirectRegExp "/x/aaaa/login" "aaaa" "/x/bbbb/login" "bbbb".

(** A static server answering every path with the same short page. *)
Definition softPage : Response := page 200 (Some "not here") None 8.

Definition softServer : World := staticWorld softPage.

(** A server whose second baseline response has no body. *)
Definition bodilessSecond : World :=
  {| request := fun n _ =>
       match n with
       | O => Ok (page 200 (Some "not here") None 8)
       | _ => Ok (page 200 None None 0)
       end;
     randString := fun n => match n with O => "aaaa" | _ => "bbbb" end;
     newDynamicContentParser := fun _ b1 b2 => exactParser b1 b2 |}.

(** A profile calibrated on redirects to [/x/<probe>/login], with a
    comparator that answers [r]. *)
Definition loginProfile (r : float) : t :=
  {| calibration := None; suffix := ""; prefix := ""; tester := None;
     redirectRegExp := Some loginPattern;
     invalidStatus := Some 302%Z;
     dynamicParser := Some (constParser r);
     ratio := 0.98%float |}.

End ScannerFixtures.

Module ControllerFixtures.
Import PyStr Controller.

(** No filter configured, no recursion, nothing excluded. *)
Definition plain : Settings :=
  {| skip_on_status := []; excludeStatusCodes := []; includeStatusCodes := [];
     blacklists := []; excludeSizes := [];
     minimumResponseSize := None; maximumResponseSize := None;
     excludeTexts := []; excludeRegexps := []; excludeRedirects := [];
     recursive := false; deep_recursive := false; force_recursive := false;
     recursionStatusCodes := []; recursion_depth := None;
     scanSubdirs := []; excludeSubdirs := [];
     full_url := false; replay_proxy := None; exit_on_error := false;
     maxtime := None |}.

Definition with_recursion (r d f : bool) (cfg : Settings) : Settings :=
  {| skip_on_status := skip_on_status cfg;
     excludeStatusCodes := excludeStatusCodes cfg;
     includeStatusCodes := includeStatusCodes cfg;
     blacklists := blacklists cfg; excludeSizes := excludeSizes cfg;
     minimumResponseSize := minimumResponseSize cfg;
     maximumResponseSize := maximumResponseSize cfg;
     excludeTexts := excludeTexts cfg; excludeRegexps := excludeRegexps cfg;
     excludeRedirects := excludeRedirects cfg;
     recursive := r; deep_recursive := d; force_recursive := f;
     recursionStatusCodes := recursionStatusCodes cfg;
     recursion_depth := recursion_depth cfg;
     scanSubdirs := scanSubdirs cfg; excludeSubdirs := excludeSubdirs cfg;
     full_url := full_url cfg; replay_proxy := replay_proxy cfg;
     exit_on_error := exit_on_error cfg; maxtime := maxtime cfg |}.

Definition with_scanSubdirs (l : list string) (cfg : Settings) : Settings :=
  {| skip_on_status := skip_on_status cfg;
     excludeStatusCodes := excludeStatusCodes cfg;
     includeStatusCodes := includeStatusCodes cfg;
     blacklists := blacklists cfg; excludeSizes := excludeSizes cfg;
     minimumResponseSize := minimumResponseSize cfg;
     maximumResponseSize := maximumResponseSize cfg;
     excludeTexts := excludeTexts cfg; excludeRegexps := excludeRegexps cfg;
     excludeRedirects := excludeRedirects cfg;
     recursive := recursive cfg; deep_recursive := deep_recursive cfg;
     force_recursive := force_recursive cfg;
     recursionStatusCodes := recursionStatusCodes cfg;
     recursion_depth := recursion_depth cfg;
     scanSubdirs := l; excludeSubdirs := excludeSubdirs cfg;
     full_url := full_url cfg; replay_proxy := replay_proxy cfg;
     exit_on_error := exit_on_error cfg; maxtime := maxtime cfg |}.


(** The controller at the start of a target of the given transport. *)
Definition targetStart (url base : string) : State :=
  {| directories := []; doneDirs := []; allJobs := 1; currentJob := 0;
     index := 0; currentDirectory := ""; basePath := base; baseUrl := url;
     status_skip := None; exit_ := false; report_completed := Some false;
     events := [] |}.

(** The three tests that make the loop of [addDirectory] pass over a
    directory. *)
Definition skips (cfg : Settings) (s : State) (dir : string) : bool :=
  mem dir (scanSubdirs cfg) || mem dir (doneDirs s) || tooDeep cfg dir.

(** The list the loop of [addDirectory] runs over; empty for an excluded
    path. *)
Definition resolved (cfg : Settings) (s : State) (p : string) : list string :=
  if excluded cfg (strip_query p) then []
  else candidateDirs cfg (currentDirectory s) (strip_query p).

Definition forced : Settings := with_recursion false false true plain.

(** [urljoin] on a reference that is an absolute path: the scheme and the
    host of the base, then the reference. *)
Definition joinAbsolutePath (base ref : string) : string :=
  join "/" (firstn 3 (split "/" base)) ++ ref.

Definition absolutePaths : Library :=
  {| urljoin := joinAbsolutePath;
     size_human := fun _ => "";
     re_search := fun _ _ => false;
     re_match := fun _ _ => false |}.


(** A computation that leaves [status_skip] alone. *)
Definition keeps_skip {A} (m : M A) : Prop :=
  forall s, status_skip (snd (m s)) = status_skip s.


Definition found (p : string) : Path :=
  {| path := p; status := 200;
     response := ScannerFixtures.page 200 (Some "welcome") None 7 |}.


End ControllerFixtures.

(** * Notions used by the further properties *)

Module Notions.
Import PyStr Regex.

(** No character of [q] is one that [re.escape] escapes. *)
Definition plain_str (q : string) : bool :=
  forallb (fun c => negb (char_in c special_chars)) (list_ascii_of_string q).

(** [c] is the last character of [s]. *)
Fixpoint last_is (c : ascii) (s : string) : bool :=
  match s with
  | EmptyString => false
  | String x EmptyString => Ascii.eqb x c
  | String _ s' => last_is c s'
  end.

(** No newline in [s]: what [.*] can run over. *)
Fixpoint no_newline (s : string) : bool :=
  match s with
  | EmptyString => true
  | String c s' => negb (Ascii.eqb c newline) && no_newline s'
  end.

(** What the first loop of [generateRedirectRegExp] walks over: the
    characters the two strings share from the front, and whether the walk
    ended on a difference. *)
Fixpoint common_prefix (a b : string) : string :=
  match a, b with
  | String x a', String y b' =>
      if Ascii.eqb x y then String x (common_prefix a' b') else EmptyString
  | _, _ => EmptyString
  end.

Fixpoint diverge (a b : string) : bool :=
  match a, b with
  | String x a', String y b' => if Ascii.eqb x y then diverge a' b' else true
  | _, _ => false
  end.

(** The characters the two strings share from the back. *)
Definition common_suffix (a b : string) : string :=
  reversed (common_prefix (reversed a) (reversed b)).

End Notions.

(** * Further sample inputs *)

Module ScannerSamples.
Import PyStr Regex Scanner ScannerFixtures.

(** The profile the constructor returns on [softServer]. *)
Definition softProfile : t :=
  set_ratio
    (set_dynamicParser
       (set_invalidStatus (fresh None None None) (Some 200%Z))
       (Some (exactParser "not here" "not here")))
    0.9%float.

End ScannerSamples.

Module ControllerNotions.
Import PyStr Controller.

(** The state after [addDirectory] enqueued the directories [added]. *)
Definition grown (added : list string) (s : State) : State :=
  {| directories := (directories s ++ added)%list;
     doneDirs := (doneDirs s ++ added)%list;
     allJobs := (allJobs s + Z.of_nat (List.length added))%Z;
     currentJob := currentJob s; index := index s;
     currentDirectory := currentDirectory s; basePath := basePath s;
     baseUrl := baseUrl s; status_skip := status_skip s;
     exit_ := exit_ s;
     report_completed := report_completed s; events := events s |}.

(** What a callback may do to the controller: append [added] to the queue
    and to the done-set, count them as jobs, append [evs] to the output and
    advance the counter of processed entries by [k].  The skip signal is a
    field of its own; everything else stays. *)
Definition effect (s s' : State) (added : list string) (evs : list event) (k : Z)
  : Prop :=
  directories s' = (directories s ++ added)%list /\
  doneDirs s' = (doneDirs s ++ added)%list /\
  allJobs s' = (allJobs s + Z.of_nat (List.length added))%Z /\
  currentJob s' = currentJob s /\
  index s' = (index s + k)%Z /\
  currentDirectory s' = currentDirectory s /\
  basePath s' = basePath s /\
  baseUrl s' = baseUrl s /\
  exit_ s' = exit_ s /\
  events s' = (events s ++ evs)%list.

(** A computation whose every run, normal or not, has such an effect. *)
Definition steps {A} (k : Z) (m : M A) : Prop :=
  forall s, exists added evs, effect s (snd (m s)) added evs k.

(** Jobs announced that are neither started nor waiting: [allJobs] less
    [currentJob] less the length of the queue. *)
Definition balance (s : State) : Z :=
  (allJobs s - currentJob s - Z.of_nat (List.length (directories s)))%Z.




(** The directories of [dirs] that the loop of [addDirectory] accepts from
    the state [s], in the order of the loop: those that pass its three tests,
    each at its first occurrence. *)
Fixpoint accepted_dirs (skipped : string -> bool) (seen dirs : list string)
  : list string :=
  match dirs with
  | [] => []
  | d :: dirs' =>
      if skipped d || mem d seen then accepted_dirs skipped seen dirs'
      else d :: accepted_dirs skipped (d :: seen) dirs'
  end.

(** [list(filter(None, dict.fromkeys(urls)))]: the first occurrence of every
    URL, in order, the empty ones dropped. *)
Fixpoint fromkeys (seen urls : list string) : list string :=
  match urls with
  | [] => []
  | u :: urls' =>
      if mem u seen then fromkeys seen urls'
      else u :: fromkeys (u :: seen) urls'
  end.

Definition urlList (urls : list string) : list string :=
  filter (fun u => negb (String.eqb u "")) (fromkeys [] urls).

(** [url if url.endswith("/") else url + "/"], the first statement of the
    loop over the targets. *)
Definition targetUrl (url : string) : string :=
  if endswith url "/" then url else url ++ "/".

End ControllerNotions.

(** ** lib/controller/controller.py: getBlacklists *)

Module Blacklists.
Import PyStr Controller.

(** What [getBlacklists] takes from outside the file: the lines of the
    blacklist file of a status ([None] when [FileUtils.can_read] fails), and
    [reext.sub(extension, line)], the substitution of the [%EXT%] keyword
    by [re]. *)
Class Files : Type := {
  get_lines : Z -> option (list string);
  ext_sub : string -> string -> string
}.

(** All the characters [str.lstrip()] removes, among the 8-bit ones. *)
Definition is_whitespace (c : ascii) : bool :=
  let n := nat_of_ascii c in
  ((n =? 32) || ((9 <=? n) && (n <=? 13)) || ((28 <=? n) && (n <=? 31)) ||
   (n =? 133) || (n =? 160))%nat.

Fixpoint lstrip (s : string) : string :=
  match s with
  | String x s' => if is_whitespace x then lstrip s' else s
  | EmptyString => EmptyString
  end.

Definition lower_char (c : ascii) : ascii :=
  let n := nat_of_ascii c in
  if ((65 <=? n) && (n <=? 90))%nat then ascii_of_nat (n + 32) else c.

(** [s.lower()] on the letters A to Z, the only ones that matter for the
    search of the keyword. *)
Fixpoint lower (s : string) : string :=
  match s with
  | EmptyString => EmptyString
  | String c s' => String (lower_char c) (lower s')
  end.

(** [line[1:]] when the line starts with a slash *)
Definition dropSlash (line : string) : string :=
  match line with
  | String "/" rest => rest
  | _ => line
  end.

Definition isComment (line : string) : bool := startswith (lstrip line) "#".

Definition hasKeyword (line : string) : bool := contains (lower line) "%ext%".

Section WithFiles.
Context {F : Files}.

(** The entries one line of a blacklist file contributes. *)
Definition entriesOf (extensions : list string) (line : string) : list string :=
  if isComment line then []
  else
    let line := dropSlash line in
    if hasKeyword line
    then map (fun extension => ext_sub extension line) extensions
    else [line].

(** The dictionary [getBlacklists] returns, in the order of its keys. *)
Definition getBlacklists (extensions : list string) : list (Z * list string) :=
  flat_map
    (fun status =>
       match get_lines status with
       | None => []
       | Some lines => [(status, flat_map (entriesOf extensions) lines)]
       end)
    [400%Z; 403%Z; 500%Z].

End WithFiles.

End Blacklists.

Module ControllerSamples.
Import PyStr Controller ControllerFixtures.

(** A target with no filter and no recursion, seeded. *)
Definition rootOnly : State :=
  seedDirectories plain (targetStart "http://example.com:80" "/").

(** The same target after its one job ran to the end. *)
Definition rootDone : State :=
  {| directories := []; doneDirs := []; allJobs := 1; currentJob := 1;
     index := 0; currentDirectory := ""; basePath := "/";
     baseUrl := "http://example.com:80"; status_skip := None; exit_ := false;
     report_completed := None;
     events := [Starting ""; FuzzerStart "/"; ReportCompleted; UpdateReport] |}.




(** The substitution of the keyword, in any case of its letters, by an
    extension that holds no backslash: what [reext.sub] does then.  [skip]
    counts the characters of a keyword still to be dropped. *)
Fixpoint subKeyword (skip : nat) (extension line : string) : string :=
  match line with
  | EmptyString => EmptyString
  | String c line' =>
      match skip with
      | S k => subKeyword k extension line'
      | O =>
          if String.prefix "%ext%" (Blacklists.lower line)
          then extension ++ subKeyword 4 extension line'
          else String c (subKeyword 0 extension line')
      end
  end.

(** Blacklist files: one for 403 with a comment, a plain line and a
    keyword line; none readable for the other statuses. *)
Definition oneBlacklist : Blacklists.Files :=
  {| Blacklists.get_lines := fun st =>
       if (st =? 403)%Z then Some ["# private"; "/server-status"; "backup.%EXT%"]
       else None;
     Blacklists.ext_sub := subKeyword 0 |}.

Definition blacklisting : Settings :=
  {| skip_on_status := []; excludeStatusCodes := []; includeStatusCodes := [];
     blacklists := @Blacklists.getBlacklists oneBlacklist ["php"];
     excludeSizes := [];
     minimumResponseSize := None; maximumResponseSize := None;
     excludeTexts := []; excludeRegexps := []; excludeRedirects := [];
     recursive := false; deep_recursive := false; force_recursive := false;
     recursionStatusCodes := []; recursion_depth := None;
     scanSubdirs := []; excludeSubdirs := [];
     full_url := false; replay_proxy := None; exit_on_error := false;
     maxtime := None |}.

Definition forbidden (p : string) : Path :=
  {| path := p; status := 403;
     response := ScannerFixtures.page 403 (Some "no") None 2 |}.

End ControllerSamples.

(** * Properties *)

(** ** The string methods *)

Module PyStrFacts.
Import PyStr Notions.

Lemma append_nil_r (s : string) : s ++ "" = s.
Proof. induction s as [|c s IH]; cbn; [reflexivity | now rewrite IH]. Qed.

Lemma append_assoc_str (a b c : string) : (a ++ b) ++ c = a ++ (b ++ c).
Proof. induction a as [|x a IH]; cbn; [reflexivity | now rewrite IH]. Qed.

Lemma length_append (a b : string) :
  String.length (a ++ b) = String.length a + String.length b.
Proof. induction a as [|x a IH]; cbn; [reflexivity | now rewrite IH]. Qed.

Lemma prefix_append (p r : string) : String.prefix p (p ++ r) = true.
Proof.
  induction p as [|c p IH]; cbn.
  - now destruct r.
  - destruct (ascii_dec c c) as [_|n]; [exact IH | now destruct n].
Qed.

Lemma prefix_split (p s : string) :
  String.prefix p s = true -> exists r, s = p ++ r.
Proof.
  revert s. induction p as [|c p IH]; intros s H.
  - exists s. reflexivity.
  - destruct s as [|d s]; cbn in H; [discriminate|].
    destruct (ascii_dec c d) as [->|]; [|discriminate].
    destruct (IH s H) as [r ->]. exists r. reflexivity.
Qed.

Lemma prefix_cons (c d : ascii) (p s : string) :
  String.prefix (String c p) (String d s) = Ascii.eqb c d && String.prefix p s.
Proof.
  cbn. destruct (ascii_dec c d) as [->|n].
  - now rewrite Ascii.eqb_refl.
  - apply Ascii.eqb_neq in n. now rewrite n.
Qed.

(** *** replace *)

Lemma replace_from_skip (u old new rest : string) :
  replace_from (String.length u) old new (u ++ rest) =
  replace_from 0 old new rest.
Proof.
  induction u as [|c u IH]; cbn [String.length append].
  - destruct rest; reflexivity.
  - cbn [replace_from]. exact IH.
Qed.

(** An occurrence at the front is replaced and the scan goes on behind it. *)
Lemma replace_from_hit (c : ascii) (old new rest : string) :
  replace_from 0 (String c old) new (String c old ++ rest) =
  new ++ replace_from 0 (String c old) new rest.
Proof.
  cbn [append]. cbn [replace_from].
  change (String c (old ++ rest)) with (String c old ++ rest).
  rewrite prefix_append.
  replace (String.length (String c old) - 1) with (String.length old)
    by (cbn [String.length]; lia).
  rewrite replace_from_skip. reflexivity.
Qed.

Lemma replace_from_miss (c : ascii) (old new s : string) :
  String.prefix old (String c s) = false ->
  replace_from 0 old new (String c s) = String c (replace_from 0 old new s).
Proof. intros H. cbn [replace_from]. now rewrite H. Qed.

(** Induction on strings by length. *)
Lemma string_length_ind (P : string -> Prop) :
  (forall s, (forall t, String.length t < String.length s -> P t) -> P s) ->
  forall s, P s.
Proof.
  intros H s.
  assert (G : forall n t, String.length t < n -> P t).
  { induction n as [|n IH]; intros t Ht; [lia|].
    apply H. intros u Hu. apply IH. lia. }
  apply (G (S (String.length s))). lia.
Qed.

(** A character foreign to [old] cuts the string in two parts that are
    replaced on their own. *)
Lemma prefix_foreign (c : ascii) (old s t : string) :
  Regex.char_in c old = false ->
  String.prefix old (s ++ String c t) = String.prefix old s.
Proof.
  revert s. induction old as [|x old IH]; intros s Hc.
  - destruct s; reflexivity.
  - cbn [Regex.char_in] in Hc. apply orb_false_iff in Hc as [Hx Hc].
    destruct s as [|d s]; cbn [append].
    + rewrite prefix_cons, Hx. reflexivity.
    + rewrite !prefix_cons, IH by assumption. reflexivity.
Qed.

Lemma replace_from_foreign (c x : ascii) (old new s t : string) :
  Regex.char_in c (String x old) = false ->
  replace_from 0 (String x old) new (s ++ String c t) =
  replace_from 0 (String x old) new s ++
  String c (replace_from 0 (String x old) new t).
Proof.
  intros Hc. induction s as [s IH] using string_length_ind.
  destruct s as [|d s].
  - cbn [append]. rewrite replace_from_miss; [reflexivity|].
    exact (prefix_foreign c (String x old) "" t Hc).
  - destruct (String.prefix (String x old) (String d s)) eqn:E.
    + destruct (prefix_split _ _ E) as [r Hr]. rewrite Hr.
      rewrite append_assoc_str, !replace_from_hit, append_assoc_str.
      f_equal. apply IH. rewrite Hr, length_append. cbn. lia.
    + cbn [append]. rewrite !replace_from_miss; try assumption.
      * cbn [append]. f_equal. apply IH. cbn. lia.
      * change (String d (s ++ String c t)) with (String d s ++ String c t).
        now rewrite prefix_foreign.
Qed.

(** *** split, join, count *)

Lemma split_not_nil (c : ascii) (s : string) : split c s <> [].
Proof.
  induction s as [|x s IH]; cbn; [discriminate|].
  destruct (Ascii.eqb x c); [discriminate|].
  destruct (split c s); [contradiction | discriminate].
Qed.

Lemma length_split (c : ascii) (s : string) :
  List.length (split c s) = S (count c s).
Proof.
  induction s as [|x s IH]; cbn [split count]; [reflexivity|].
  destruct (Ascii.eqb x c); cbn [List.length].
  - now rewrite IH.
  - destruct (split c s) as [|h t] eqn:E; [now destruct (split_not_nil c s)|].
    cbn [List.length] in *. exact IH.
Qed.

Lemma join_cons (sep x : string) (l : list string) :
  l <> [] -> join sep (x :: l) = x ++ sep ++ join sep l.
Proof. destruct l; [contradiction | reflexivity]. Qed.

Lemma join_push (sep : string) (x : ascii) (h : string) (t : list string) :
  join sep (String x h :: t) = String x (join sep (h :: t)).
Proof. destruct t; reflexivity. Qed.

(** [sep.join(s.split(sep)) == s] *)
Lemma join_split (c : ascii) (s : string) :
  join (String c "") (split c s) = s.
Proof.
  induction s as [|x s IH]; cbn [split]; [reflexivity|].
  destruct (Ascii.eqb x c) eqn:E.
  - apply Ascii.eqb_eq in E. subst x.
    rewrite join_cons by apply split_not_nil. cbn [append]. now rewrite IH.
  - destruct (split c s) as [|h t] eqn:Es; [now destruct (split_not_nil c s)|].
    rewrite join_push. now rewrite IH.
Qed.

(** [sep.join(l).split(sep) == l] for a non-empty [l] whose parts hold no
    separator. *)
Lemma split_join (c : ascii) (l : list string) :
  l <> [] ->
  Forall (fun x => count c x = 0) l ->
  split c (join (String c "") l) = l.
Proof.
  intros Hne Hall. induction l as [|x l IH]; [contradiction|].
  inversion Hall as [|? ? Hx Hl]; subst.
  assert (Hone : forall y, count c y = 0 -> split c y = [y]).
  { induction y as [|d y IHy]; cbn [count split]; [reflexivity|].
    destruct (Ascii.eqb d c); [discriminate|]. cbn. intros H.
    now rewrite (IHy H). }
  assert (Happ : forall y rest, count c y = 0 ->
             split c (y ++ String c rest) = y :: split c rest).
  { induction y as [|d y IHy]; intros rest; cbn [count append split].
    - now rewrite Ascii.eqb_refl.
    - destruct (Ascii.eqb d c); [discriminate|]. cbn. intros H.
      now rewrite (IHy rest H). }
  destruct l as [|x' l].
  - cbn [join]. now apply Hone.
  - cbn [join]. cbn [append]. rewrite (Happ x _ Hx). f_equal.
    apply IH; [discriminate | assumption].
Qed.

Lemma split_parts_clean (c : ascii) (s : string) :
  Forall (fun x => count c x = 0) (split c s).
Proof.
  induction s as [|x s IH]; cbn [split].
  - repeat constructor.
  - destruct (Ascii.eqb x c) eqn:E.
    + constructor; [reflexivity | assumption].
    + destruct (split c s) as [|h t]; [repeat constructor; cbn; now rewrite E|].
      inversion IH; subst. constructor; [cbn; now rewrite E | assumption].
Qed.

Lemma count_append (c : ascii) (a b : string) :
  count c (a ++ b) = count c a + count c b.
Proof.
  induction a as [|x a IH]; cbn [append count]; [reflexivity|].
  rewrite IH. lia.
Qed.

(** *** endswith *)

Lemma endswith_char (s : string) (c : ascii) :
  endswith s (String c "") = last_is c s.
Proof.
  unfold endswith. cbn [String.length].
  induction s as [|x s IH]; [reflexivity|].
  cbn [String.length last_is]. rewrite Nat.sub_succ, Nat.sub_0_r.
  destruct s as [|y s].
  - cbn. destruct (Ascii.eqb x c); reflexivity.
  - cbn [String.length] in *. rewrite Nat.sub_succ, Nat.sub_0_r in IH.
    cbn [substring Nat.leb andb] in *. exact IH.
Qed.

Lemma last_is_append (c d : ascii) (s : string) :
  last_is c (s ++ String d "") = Ascii.eqb d c.
Proof.
  induction s as [|x s IH]; [reflexivity|].
  cbn [append last_is]. destruct (s ++ String d "") eqn:E; [|exact IH].
  destruct s; discriminate.
Qed.

Lemma endswith_append_char (s : string) (c : ascii) :
  endswith (s ++ String c "") (String c "") = true.
Proof. rewrite endswith_char, last_is_append. apply Ascii.eqb_refl. Qed.

End PyStrFacts.

Module ScannerFacts.
Import PyStr Regex Scanner ScannerFixtures.

(** *** Status-only targets *)

Lemma scan_404_target (self : t) (path : string) (response : Response) :
  invalidStatus self = Some 404%Z ->
  scan self path response = Ok (negb (status response =? 404)%Z).
Proof.
  intros H. unfold scan. rewrite H. cbn [Z_opt_eqb].
  rewrite Z.eqb_sym.
  destruct (status response =? 404)%Z; reflexivity.
Qed.

(** C1. When calibration recorded [invalidStatus == 404], [scan] returns
    found exactly when the status of the response is not 404, whatever the
    path, the body and the redirect location of the response. *)
Theorem scan_found_iff_not_404 (self : t) (path : string) (response : Response) :
  invalidStatus self = Some 404%Z ->
  (scan self path response = Ok true <-> status response <> 404%Z) /\
  (scan self path response = Ok false <-> status response = 404%Z) /\
  (forall path' b loc n,
      scan self path' (page (status response) b loc n) = scan self path response).
Proof.
  intros H. rewrite (scan_404_target self path response H).
  repeat split.
  - intros E He. apply Z.eqb_eq in He. rewrite He in E. discriminate.
  - intros Hne. apply Z.eqb_neq in Hne. rewrite Hne. reflexivity.
  - intros E. apply Z.eqb_eq. destruct (status response =? 404)%Z;
      [reflexivity | discriminate].
  - intros He. apply Z.eqb_eq in He. rewrite He. reflexivity.
  - intros path' b loc n. rewrite (scan_404_target _ _ _ H). reflexivity.
Qed.

Lemma scan_found_iff_not_404_witness :
  (scan target404 "admin" (page 200 (Some "hello") None 5) = Ok true <->
     200%Z <> 404%Z) /\
  (scan target404 "admin" (page 200 (Some "hello") None 5) = Ok false <->
     200%Z = 404%Z) /\
  (forall path' b loc n,
      scan target404 path' (page 200 b loc n) =
      scan target404 "admin" (page 200 (Some "hello") None 5)).
Proof.
  apply (scan_found_iff_not_404 target404 "admin"
           (page 200 (Some "hello") None 5)).
  reflexivity.
Defined.

(** *** The generalized redirect pattern *)

Lemma special_not_alnum (c : ascii) :
  char_in c special_chars = true -> is_alnum c = false.
Proof.
  destruct c as [[] [] [] [] [] [] [] []]; vm_compute; intros H;
    first [reflexivity | discriminate H].
Qed.

Lemma ordinary_lexes_as_itself (c : ascii) (s : string) :
  char_in c special_chars = false ->
  lex (String c s) = option_map (cons (TChr c)) (lex s).
Proof.
  destruct c as [[] [] [] [] [] [] [] []]; vm_compute char_in; intros H;
    first [discriminate H | reflexivity].
Qed.

Lemma lex_escape_char (c : ascii) (s : string) :
  lex (escape_char c ++ s) = option_map (cons (TChr c)) (lex s).
Proof.
  unfold escape_char.
  destruct (char_in c special_chars) eqn:E.
  - cbn [append lex Ascii.eqb Bool.eqb].
    rewrite (special_not_alnum c E). reflexivity.
  - cbn [append]. apply ordinary_lexes_as_itself, E.
Qed.

Lemma append_assoc (a b c : string) : (a ++ b) ++ c = a ++ (b ++ c).
Proof. induction a as [|x a IH]; cbn; [reflexivity | now rewrite IH]. Qed.

Lemma lex_escape (p rest : string) :
  lex (escape p ++ rest) = option_map (app (chars p)) (lex rest).
Proof.
  induction p as [|c p IH]; cbn [escape].
  - cbn. destruct (lex rest); reflexivity.
  - rewrite append_assoc, lex_escape_char, IH.
    destruct (lex rest); reflexivity.
Qed.

Lemma group_chr (c : ascii) (ts : list token) :
  starts_with_star ts = false ->
  group (TChr c :: ts) = option_map (cons (One (Chr c))) (group ts).
Proof.
  destruct ts as [|[] ts]; cbn; intros H; first [reflexivity | discriminate H].
Qed.

Lemma group_chars (p : string) (ts : list token) :
  starts_with_star ts = false ->
  group (chars p ++ ts) = option_map (app (literals p)) (group ts).
Proof.
  intros H. unfold chars, literals.
  induction (list_ascii_of_string p) as [|c l IH]; cbn [map app].
  - destruct (group ts); reflexivity.
  - rewrite group_chr.
    + rewrite IH. destruct (group ts); reflexivity.
    + destruct l; [exact H | reflexivity].
Qed.

Lemma match_literals (p : string) (r : list atom) (s : string) :
  match_here (literals p ++ r) false (p ++ s) = match_here r false s.
Proof.
  unfold literals.
  induction p as [|c p IH]; cbn [list_ascii_of_string map app append].
  - reflexivity.
  - cbn [match_here item_ok]. rewrite Ascii.eqb_refl. exact IH.
Qed.

Lemma loginPattern_value : loginPattern = "^/x/DIRSEARCH_PATH/login$".
Proof. reflexivity. Qed.

Lemma loginPattern_substituted (p : string) :
  replace placeholder (escape p) loginPattern = "^/x/" ++ escape p ++ "/login$".
Proof. reflexivity. Qed.

Lemma loginPattern_parsed (p : string) :
  parse ("^/x/" ++ escape p ++ "/login$") =
  Some (Bol :: literals "/x/" ++ literals p ++ literals "/login" ++ [Eol]).
Proof.
  unfold parse.
  change ("^/x/" ++ escape p ++ "/login$")
    with (String "^" (String "/" (String "x" (String "/" (escape p ++ "/login$"))))).
  cbn [lex Ascii.eqb Bool.eqb char_in unsupported_meta orb].
  rewrite lex_escape. cbn [lex Ascii.eqb Bool.eqb char_in unsupported_meta orb option_map].
  change (group (TBol :: ?ts)) with (option_map (cons Bol) (group ts)).
  rewrite !group_chr;
    try reflexivity;
    try (unfold chars; destruct (list_ascii_of_string p); reflexivity).
  rewrite group_chars by reflexivity.
  reflexivity.
Qed.

(** C4. The pattern generalized from the baseline redirects [/x/aaaa/login]
    (probe [aaaa]) and [/x/bbbb/login] (probe [bbbb]), with the probed path
    substituted for the placeholder as [scan] does, matches the location
    [/x/<probe>/login] and does not match [/x/<probe>/admin], for every
    probe string. *)
Theorem generalized_redirect_pattern (probe : string) :
  re_match (replace placeholder (escape probe) loginPattern)
           ("/x/" ++ probe ++ "/login") = Some true /\
  re_match (replace placeholder (escape probe) loginPattern)
           ("/x/" ++ probe ++ "/admin") = Some false.
Proof.
  unfold re_match.
  rewrite loginPattern_substituted, loginPattern_parsed.
  cbn [option_map].
  split.
  - change ("/x/" ++ probe ++ "/login")
      with (String "/" (String "x" (String "/" (probe ++ "/login")))).
    cbn [literals list_ascii_of_string map app match_here item_ok andb].
    rewrite !Ascii.eqb_refl. cbn [andb].
    fold (literals probe). rewrite match_literals. reflexivity.
  - change ("/x/" ++ probe ++ "/admin")
      with (String "/" (String "x" (String "/" (probe ++ "/admin")))).
    cbn [literals list_ascii_of_string map app match_here item_ok andb].
    rewrite !Ascii.eqb_refl. cbn [andb].
    fold (literals probe). rewrite match_literals. reflexivity.
Qed.

(** *** Calibration *)

Section Calibration.
Context {W : World}.

Lemma round2_one : round2 1%float = 1%float.
Proof. vm_compute. reflexivity. Qed.

(** A first status of 404 ends the calibration: the status is recorded, no
    pattern and no comparator are built. *)
Lemma setup_404 (self : t) (r1 : Response) :
  request 0 (firstPath self) = Ok r1 ->
  status r1 = 404%Z ->
  setup self = Ok (set_invalidStatus self (Some 404%Z)).
Proof.
  intros H1 Hs. unfold setup. rewrite H1. cbn [rbind]. rewrite Hs. reflexivity.
Qed.

(** What [setup] does once the first status is known not to be 404 and
    both baseline responses arrived. *)
Lemma setup_non404 (self : t) (r1 r2 : Response) :
  request 0 (firstPath self) = Ok r1 ->
  request 1 (secondPath self) = Ok r2 ->
  status r1 <> 404%Z ->
  setup self =
  match body r1, body r2 with
  | Some b1, Some b2 =>
      let parser := newDynamicContentParser (firstPath self) b1 b2 in
      let baseRatio := round2 (comparisonRatio parser) in
      let baseRatio := if (len r1 <? 2000)%nat
                       then (baseRatio - 0.1)%float else baseRatio in
      let self' :=
        set_dynamicParser
          (match redirect r1, redirect r2 with
           | Some (String _ _ as l1), Some (String _ _ as l2) =>
               set_redirectRegExp (set_invalidStatus self (Some (status r1)))
                 (Some (generateRedirectRegExp l1 (firstPath self)
                                               l2 (secondPath self)))
           | _, _ => set_invalidStatus self (Some (status r1))
           end)
          (Some parser) in
      if (baseRatio <? ratio self)%float
      then Ok (set_ratio self' baseRatio)
      else Ok self'
  | _, _ => Raise AttributeError
  end.
Proof.
  intros H1 H2 Hs. unfold setup.
  rewrite H1. cbn [rbind].
  apply Z.eqb_neq in Hs. rewrite Hs.
  change (firstPath (set_invalidStatus self (Some (status r1))))
    with (firstPath self).
  change (secondPath (set_invalidStatus self (Some (status r1))))
    with (secondPath self).
  rewrite H2. cbn [rbind].
  destruct (body r1) as [b1|], (body r2) as [b2|];
    destruct (redirect r1) as [[|c1 l1]|], (redirect r2) as [[|c2 l2]|];
    reflexivity.
Qed.

(** C2, as the code has it.  For two identical baseline responses of a
    status other than 404, whose similarity ratio is 1.0, [setup] leaves the
    threshold at 0.98 when the first response is at least 2000 long, and
    lowers it to 0.9 (the ratio 1.0 less 0.1) when it is shorter. *)
Theorem setup_threshold_identical_baselines
    (calibration suffix prefix : option string) (r1 r2 : Response) (b : string) :
  let self := fresh calibration suffix prefix in
  request 0 (firstPath self) = Ok r1 ->
  request 1 (secondPath self) = Ok r2 ->
  status r1 <> 404%Z ->
  body r1 = Some b ->
  body r2 = Some b ->
  comparisonRatio (newDynamicContentParser (firstPath self) b b) = 1%float ->
  exists s,
    init calibration suffix prefix = Ok s /\
    ratio s = if (len r1 <? 2000)%nat then 0.9%float else 0.98%float.
Proof.
  intros self H1 H2 Hs Hb1 Hb2 Hr. unfold init. fold self.
  rewrite (setup_non404 self r1 r2 H1 H2 Hs), Hb1, Hb2.
  cbv zeta. rewrite Hr, round2_one.
  destruct (len r1 <? 2000)%nat.
  - change (ratio self) with 0.98%float.
    replace (1 - 0.1 <? 0.98)%float with true by (vm_compute; reflexivity).
    eexists. split; [reflexivity|]. cbn [ratio set_ratio].
    vm_compute. reflexivity.
  - change (ratio self) with 0.98%float.
    replace (1 <? 0.98)%float with false by (vm_compute; reflexivity).
    eexists. split; [reflexivity|].
    destruct (redirect r1) as [[|c1 l1]|], (redirect r2) as [[|c2 l2]|];
      reflexivity.
Qed.

Lemma setup_ok_inv (self s : t) (r1 r2 : Response) :
  request 0 (firstPath self) = Ok r1 ->
  request 1 (secondPath self) = Ok r2 ->
  status r1 <> 404%Z ->
  setup self = Ok s ->
  body r1 <> None /\ body r2 <> None /\
  invalidStatus s = Some (status r1) /\ dynamicParser s <> None.
Proof.
  intros H1 H2 Hs. rewrite (setup_non404 self r1 r2 H1 H2 Hs).
  destruct (body r1) as [b1|], (body r2) as [b2|]; try discriminate.
  cbv zeta.
  match goal with |- (if ?c then _ else _) = _ -> _ => destruct c end;
    intros E; injection E as <-;
    (repeat split; try discriminate);
    destruct (redirect r1) as [[|c1 l1]|], (redirect r2) as [[|c2 l2]|];
    reflexivity.
Qed.

(** C10. With a first status other than 404, [setup] raises
    [AttributeError] as soon as one of the two baseline bodies is [None];
    when it completes, both bodies were present and the profile carries a
    body comparator. *)
Theorem setup_needs_both_bodies (self : t) (r1 r2 : Response) :
  request 0 (firstPath self) = Ok r1 ->
  request 1 (secondPath self) = Ok r2 ->
  status r1 <> 404%Z ->
  (body r1 = None \/ body r2 = None -> setup self = Raise AttributeError) /\
  (forall s, setup self = Ok s ->
     body r1 <> None /\ body r2 <> None /\
     invalidStatus s = Some (status r1) /\ dynamicParser s <> None).
Proof.
  intros H1 H2 Hs. split.
  - rewrite (setup_non404 self r1 r2 H1 H2 Hs).
    intros [Hn | Hn]; rewrite Hn; [reflexivity|].
    destruct (body r1); reflexivity.
  - intros s. apply setup_ok_inv; assumption.
Qed.

(** When [setup] completes at all, the first status was 404 or both
    baseline bodies were present. *)
Lemma setup_completes_only_if (self s : t) :
  setup self = Ok s ->
  exists r1, request 0 (firstPath self) = Ok r1 /\
    (status r1 = 404%Z \/
     exists r2, request 1 (secondPath self) = Ok r2 /\
                body r1 <> None /\ body r2 <> None /\ dynamicParser s <> None).
Proof.
  intros E.
  destruct (request 0 (firstPath self)) as [r1|e] eqn:H1.
  2:{ unfold setup in E. rewrite H1 in E. discriminate. }
  exists r1. split; [reflexivity|].
  destruct (Z.eq_dec (status r1) 404) as [|Hs]; [left; assumption | right].
  destruct (request 1 (secondPath self)) as [r2|e] eqn:H2.
  - exists r2. split; [reflexivity|].
    destruct (setup_ok_inv self s r1 r2 H1 H2 Hs E) as (A & B & _ & D). auto.
  - exfalso. unfold setup in E. rewrite H1 in E. cbn [rbind] in E.
    apply Z.eqb_neq in Hs. rewrite Hs in E.
    change (secondPath (set_invalidStatus self (Some (status r1))))
      with (secondPath self) in E.
    rewrite H2 in E. discriminate.
Qed.

End Calibration.

Lemma setup_threshold_identical_baselines_witness :
  exists s,
    @init softServer None None None = Ok s /\
    ratio s = if (len softPage <? 2000)%nat then 0.9%float else 0.98%float.
Proof.
  apply (@setup_threshold_identical_baselines softServer None None None
           softPage softPage "not here");
    first [reflexivity | discriminate].
Defined.

(** C2 as the claim words it fails on the short page: the two baseline
    responses are the same page of status 200 and length 8, their ratio is
    1.0, and the threshold that [setup] derives is 0.9, not 0.88. *)
Lemma short_baseline_threshold_is_not_088 :
  @request softServer 0 (@firstPath softServer (fresh None None None)) = Ok softPage /\
  @request softServer 1 (@secondPath softServer (fresh None None None)) = Ok softPage /\
  comparisonRatio
    (@newDynamicContentParser softServer
       (@firstPath softServer (fresh None None None)) "not here" "not here") = 1%float /\
  (len softPage <? 2000)%nat = true /\
  exists s, @init softServer None None None = Ok s /\
            ratio s = 0.9%float /\
            (ratio s =? 0.88)%float = false.
Proof.
  repeat split.
  eexists. split; [reflexivity|]. split; vm_compute; reflexivity.
Qed.

Lemma setup_needs_both_bodies_witness :
  (body (page 200 (Some "not here") None 8) = None \/
   body (page 200 None None 0) = None ->
   @setup bodilessSecond (fresh None None None) = Raise AttributeError) /\
  (forall s, @setup bodilessSecond (fresh None None None) = Ok s ->
     body (page 200 (Some "not here") None 8) <> None /\
     body (page 200 None None 0) <> None /\
     invalidStatus s = Some (status (page 200 (Some "not here") None 8)) /\
     dynamicParser s <> None).
Proof.
  apply (@setup_needs_both_bodies bodilessSecond (fresh None None None)
           (page 200 (Some "not here") None 8) (page 200 None None 0));
    first [reflexivity | discriminate].
Defined.

(** *** The decision *)

(** The redirect test is performed exactly when a pattern exists and the
    response redirects; its result is that of [re.match]. *)
Lemma redirectToInvalid_performed (self : t) (path : string) (response : Response)
    (rx loc : string) (m : bool) :
  redirectRegExp self = Some rx -> rx <> "" ->
  redirect response = Some loc -> loc <> "" ->
  re_match (replace placeholder (escape path) rx) loc = Some m ->
  redirectToInvalid self path response = Ok (Some m).
Proof.
  intros Hrx Hne Hloc Hne' Hm. unfold redirectToInvalid.
  rewrite Hrx, Hloc.
  destruct rx; [contradiction|]. destruct loc; [contradiction|].
  rewrite Hm. reflexivity.
Qed.

Lemma redirectToInvalid_skipped (self : t) (path : string) (response : Response) :
  truthy_str (redirectRegExp self) && truthy_str (redirect response) = false ->
  redirectToInvalid self path response = Ok None.
Proof.
  unfold redirectToInvalid.
  destruct (redirectRegExp self) as [[|c rx]|], (redirect response) as [[|d loc]|];
    cbn; intros H; first [reflexivity | discriminate H].
Qed.

(** C3, as the code has it.  On a response whose status equals a non-404
    [invalidStatus]: when the redirect test was performed and the location
    matched the pattern, the response is found only if the body ratio is
    below both the threshold and the threshold less 0.15; when the location
    did not match, it is found whatever the ratio; when no redirect test was
    performed, only the threshold itself counts. *)
Theorem scan_redirect_tolerance
    (self : t) (path : string) (response : Response) (parser : DynamicContentParser) :
  invalidStatus self = Some (status response) ->
  status response <> 404%Z ->
  dynamicParser self = Some parser ->
  let r := compareTo parser (body response) in
  match redirectToInvalid self path response with
  | Ok (Some true) =>
      scan self path response =
      Ok (negb ((ratio self <=? r)%float || (ratio self - 0.15 <=? r)%float))
  | Ok (Some false) => scan self path response = Ok true
  | Ok None => scan self path response = Ok (negb (ratio self <=? r)%float)
  | Raise e => scan self path response = Raise e
  end.
Proof.
  intros Hi Hs Hp r. unfold scan.
  rewrite Hi. cbn [Z_opt_eqb]. rewrite Z.eqb_refl.
  apply Z.eqb_neq in Hs. rewrite Hs. cbn [andb negb].
  destruct (redirectToInvalid self path response) as [[[|]|]|e];
    cbn [rbind]; try reflexivity; rewrite Hp; fold r;
    destruct (ratio self <=? r)%float; cbn [orb negb andb]; try reflexivity;
    destruct (ratio self - 0.15 <=? r)%float; reflexivity.
Qed.

Lemma scan_redirect_tolerance_witness :
  match redirectToInvalid (loginProfile 0.9)
          "cccc" (page 302 (Some "moved") (Some "/x/cccc/login") 5) with
  | Ok (Some true) =>
      scan (loginProfile 0.9) "cccc" (page 302 (Some "moved") (Some "/x/cccc/login") 5) =
      Ok (negb ((0.98 <=? 0.9)%float || (0.98 - 0.15 <=? 0.9)%float))
  | Ok (Some false) =>
      scan (loginProfile 0.9) "cccc" (page 302 (Some "moved") (Some "/x/cccc/login") 5) =
      Ok true
  | Ok None =>
      scan (loginProfile 0.9) "cccc" (page 302 (Some "moved") (Some "/x/cccc/login") 5) =
      Ok (negb (0.98 <=? 0.9)%float)
  | Raise e =>
      scan (loginProfile 0.9) "cccc" (page 302 (Some "moved") (Some "/x/cccc/login") 5) =
      Raise e
  end.
Proof.
  apply (scan_redirect_tolerance (loginProfile 0.9) "cccc"
           (page 302 (Some "moved") (Some "/x/cccc/login") 5) (constParser 0.9));
    first [reflexivity | discriminate].
Defined.

(** C3 as the claim words it fails: a pattern exists, the response
    redirects, its status equals [invalidStatus], the location does not
    match the pattern, the body ratio 1.0 is above the threshold less 0.15,
    and [scan] answers found. *)
Lemma redirect_mismatch_is_found :
  truthy_str (redirectRegExp (loginProfile 1)) = true /\
  truthy_str (redirect (page 302 (Some "moved") (Some "/x/cccc/admin") 5)) = true /\
  invalidStatus (loginProfile 1) =
    Some (status (page 302 (Some "moved") (Some "/x/cccc/admin") 5)) /\
  re_match (replace placeholder (escape "cccc") loginPattern) "/x/cccc/admin" =
    Some false /\
  (ratio (loginProfile 1) - 0.15 <=?
     compareTo (constParser 1) (Some "moved"))%float = true /\
  scan (loginProfile 1) "cccc" (page 302 (Some "moved") (Some "/x/cccc/admin") 5) =
    Ok true.
Proof. repeat split. Qed.

(** *** The shape of the generalized pattern *)

Import Notions PyStrFacts.

Lemma escape_append (a b : string) : escape (a ++ b) = escape a ++ escape b.
Proof.
  induction a as [|c a IH]; cbn [append escape]; [reflexivity|].
  now rewrite IH, append_assoc_str.
Qed.

Lemma plain_str_cons (c : ascii) (q : string) :
  plain_str (String c q) = negb (char_in c special_chars) && plain_str q.
Proof. reflexivity. Qed.

(** A string without special characters is its own escape. *)
Lemma escape_plain (q : string) : plain_str q = true -> escape q = q.
Proof.
  induction q as [|c q IH]; [reflexivity|].
  rewrite plain_str_cons. intros H. apply andb_true_iff in H as [Hc Hq].
  cbn [escape]. unfold escape_char.
  apply negb_true_iff in Hc. rewrite Hc. cbn [append]. now rewrite IH.
Qed.

Lemma special_differs (c d : ascii) :
  char_in c special_chars = false -> char_in d special_chars = true ->
  Ascii.eqb c d = false.
Proof.
  intros Hc Hd. destruct (Ascii.eqb c d) eqn:E; [|reflexivity].
  apply Ascii.eqb_eq in E. subst. congruence.
Qed.

Lemma backslash_special : char_in "\" special_chars = true.
Proof. reflexivity. Qed.

(** A plain string starts the escape of [s] exactly when it starts [s]. *)
Lemma prefix_escape (q s : string) :
  plain_str q = true -> String.prefix q (escape s) = String.prefix q s.
Proof.
  revert s. induction q as [|c q IH]; intros s H.
  - destruct s, (escape _); reflexivity.
  - rewrite plain_str_cons in H. apply andb_true_iff in H as [Hc Hq].
    apply negb_true_iff in Hc.
    destruct s as [|d s]; [reflexivity|].
    cbn [escape]. unfold escape_char.
    destruct (char_in d special_chars) eqn:Hd; cbn [append].
    + rewrite !prefix_cons.
      rewrite (special_differs c "\" Hc backslash_special).
      now rewrite (special_differs c d Hc Hd).
    + rewrite !prefix_cons. now rewrite IH.
Qed.

(** Substituting in the escaped text is escaping the substituted text, for a
    placeholder without special characters. *)
Lemma replace_escape (x : ascii) (q p s : string) :
  plain_str (String x q) = true ->
  replace_from 0 (String x q) (escape p) (escape s) =
  escape (replace_from 0 (String x q) p s).
Proof.
  intros Hq. induction s as [s IH] using string_length_ind.
  destruct s as [|d s]; [reflexivity|].
  destruct (String.prefix (String x q) (String d s)) eqn:E.
  - destruct (prefix_split _ _ E) as [r Hr]. rewrite Hr.
    rewrite escape_append, (escape_plain _ Hq), !replace_from_hit, escape_append.
    f_equal. apply IH. rewrite Hr, length_append. cbn. lia.
  - rewrite (replace_from_miss d _ p s E).
    assert (E' := E). rewrite <- (prefix_escape _ _ Hq) in E'.
    cbn [escape] in *. unfold escape_char in *.
    destruct (char_in d special_chars) eqn:Hd; cbn [append] in *.
    + rewrite (replace_from_miss "\" _ _ _ E').
      rewrite replace_from_miss.
      * f_equal. f_equal. apply IH. cbn. lia.
      * rewrite prefix_cons.
        rewrite plain_str_cons in Hq. apply andb_true_iff in Hq as [Hx _].
        apply negb_true_iff in Hx.
        now rewrite (special_differs x d Hx Hd).
    + rewrite (replace_from_miss d _ _ _ E'). f_equal. apply IH. cbn. lia.
Qed.

Lemma regexp_front_shape (f s acc : string) :
  exists u, regexp_front f s acc = acc ++ escape u ++ ".*" \/
            regexp_front f s acc = acc ++ escape u.
Proof.
  revert s acc. induction f as [|c f IH]; intros s acc.
  - exists "". right. cbn. now rewrite append_nil_r.
  - destruct s as [|d s].
    + exists "". right. cbn. now rewrite append_nil_r.
    + cbn [regexp_front]. destruct (Ascii.eqb c d).
      * destruct (IH s (acc ++ escape_char c)) as [u [H | H]];
          exists (String c u); [left | right]; rewrite H;
          cbn [escape]; now rewrite !append_assoc_str.
      * exists "". left. reflexivity.
Qed.

Lemma regexp_front_same (t acc : string) :
  regexp_front t t acc = acc ++ escape t.
Proof.
  revert acc. induction t as [|c t IH]; intros acc; cbn [regexp_front escape].
  - now rewrite append_nil_r.
  - rewrite Ascii.eqb_refl, IH. now rewrite append_assoc_str.
Qed.

Lemma regexp_back_shape (f s e : string) :
  exists w, regexp_back f s e = escape w ++ e.
Proof.
  revert s e. induction f as [|c f IH]; intros s e.
  - exists "". reflexivity.
  - destruct s as [|d s]; [exists ""; reflexivity|].
    cbn [regexp_back]. destruct (Ascii.eqb c d); [|exists ""; reflexivity].
    destruct (IH s (escape_char c ++ e)) as [w H].
    exists (w ++ String c ""). rewrite H, escape_append.
    cbn [escape]. now rewrite !append_assoc_str.
Qed.

(** The two shapes [generateRedirectRegExp] can return: a literal between
    the anchors, or a literal, the wildcard and a literal. *)
Lemma generateRedirectRegExp_shape (firstLoc firstPath secondLoc secondPath : string) :
  exists u w,
    generateRedirectRegExp firstLoc firstPath secondLoc secondPath =
      "^" ++ escape u ++ ".*" ++ escape w ++ "$" \/
    generateRedirectRegExp firstLoc firstPath secondLoc secondPath =
      "^" ++ escape u ++ "$".
Proof.
  unfold generateRedirectRegExp.
  set (l1 := replace firstPath placeholder firstLoc).
  set (l2 := replace secondPath placeholder secondLoc).
  destruct (regexp_front_shape l1 l2 "^") as [u [H | H]]; rewrite H.
  - destruct (regexp_back_shape (reversed l1) (reversed l2) "") as [w Hw].
    exists u, w. left.
    replace (endswith ("^" ++ escape u ++ ".*") "*") with true.
    + rewrite Hw, append_nil_r. now rewrite !append_assoc_str.
    + symmetry.
      replace ("^" ++ escape u ++ ".*") with (("^" ++ escape u ++ ".") ++ "*")
        by now rewrite !append_assoc_str.
      apply endswith_append_char.
  - destruct (endswith ("^" ++ escape u) "*").
    + destruct (regexp_back_shape (reversed l1) (reversed l2) "") as [w Hw].
      exists (u ++ w), "". right.
      rewrite Hw, append_nil_r, escape_append. now rewrite !append_assoc_str.
    + exists u, "". right. now rewrite !append_assoc_str.
Qed.

Lemma placeholder_plain : plain_str placeholder = true.
Proof. reflexivity. Qed.

Lemma substituted_literal (p u : string) :
  replace placeholder (escape p) ("^" ++ escape u ++ "$") =
  "^" ++ escape (replace placeholder p u) ++ "$".
Proof.
  unfold replace, placeholder.
  change ("^" ++ escape u ++ "$") with ("" ++ String "^" (escape u ++ "$")).
  rewrite replace_from_foreign by reflexivity.
  rewrite replace_from_foreign by reflexivity.
  rewrite replace_escape by reflexivity.
  reflexivity.
Qed.

Lemma substituted_wildcard (p u w : string) :
  replace placeholder (escape p) ("^" ++ escape u ++ ".*" ++ escape w ++ "$") =
  "^" ++ escape (replace placeholder p u) ++ ".*" ++
  escape (replace placeholder p w) ++ "$".
Proof.
  unfold replace, placeholder.
  change ("^" ++ escape u ++ ".*" ++ escape w ++ "$")
    with ("" ++ String "^" (escape u ++ String "." ("" ++ String "*" (escape w ++ "$")))).
  rewrite 4 replace_from_foreign by reflexivity.
  rewrite !replace_escape by reflexivity.
  reflexivity.
Qed.

Lemma parse_literal (u : string) :
  parse ("^" ++ escape u ++ "$") = Some (Bol :: literals u ++ [Eol]).
Proof.
  unfold parse.
  change ("^" ++ escape u ++ "$") with (String "^" (escape u ++ "$")).
  cbn [lex Ascii.eqb Bool.eqb].
  rewrite lex_escape. cbn [lex Ascii.eqb Bool.eqb option_map].
  change (group (TBol :: ?ts)) with (option_map (cons Bol) (group ts)).
  rewrite group_chars by reflexivity. reflexivity.
Qed.

Lemma parse_wildcard (u w : string) :
  parse ("^" ++ escape u ++ ".*" ++ escape w ++ "$") =
  Some (Bol :: literals u ++ Star Dot :: literals w ++ [Eol]).
Proof.
  unfold parse.
  change ("^" ++ escape u ++ ".*" ++ escape w ++ "$")
    with (String "^" (escape u ++ String "." (String "*" (escape w ++ "$")))).
  cbn [lex Ascii.eqb Bool.eqb].
  rewrite lex_escape. cbn [lex Ascii.eqb Bool.eqb].
  rewrite lex_escape. cbn [lex Ascii.eqb Bool.eqb option_map].
  change (group (TBol :: ?ts)) with (option_map (cons Bol) (group ts)).
  rewrite group_chars by reflexivity.
  change (group (TDot :: TStar :: ?ts))
    with (option_map (cons (Star Dot)) (group ts)).
  rewrite group_chars by reflexivity. reflexivity.
Qed.

(** Whatever the baseline locations and the probed path, the substituted
    pattern is one the matcher reads. *)
Lemma generated_pattern_parses
    (firstLoc firstPath secondLoc secondPath path loc : string) :
  exists m,
    re_match (replace placeholder (escape path)
                (generateRedirectRegExp firstLoc firstPath secondLoc secondPath))
             loc = Some m.
Proof.
  unfold re_match.
  destruct (generateRedirectRegExp_shape firstLoc firstPath secondLoc secondPath)
    as (u & w & [H | H]); rewrite H.
  - rewrite substituted_wildcard, parse_wildcard. eexists. reflexivity.
  - rewrite substituted_literal, parse_literal. eexists. reflexivity.
Qed.

(** *** The redirect test on equal baseline templates *)

Lemma last_is_append_nonempty (c : ascii) (a b : string) :
  b <> "" -> last_is c (a ++ b) = last_is c b.
Proof.
  intros Hb. induction a as [|x a IH]; [reflexivity|].
  cbn [append last_is]. destruct (a ++ b) eqn:E; [|exact IH].
  destruct a, b; try discriminate. contradiction.
Qed.

Lemma escape_nonempty (c : ascii) (s : string) : escape (String c s) <> "".
Proof.
  cbn [escape]. unfold escape_char.
  destruct (char_in c special_chars); discriminate.
Qed.

Lemma last_is_escape (c : ascii) (s : string) :
  last_is c (escape s) = last_is c s.
Proof.
  induction s as [|x s IH]; [reflexivity|].
  destruct s as [|y s].
  - cbn [escape]. unfold escape_char.
    destruct (char_in x special_chars); reflexivity.
  - change (escape (String x (String y s)))
      with (escape_char x ++ escape (String y s)).
    rewrite last_is_append_nonempty by apply escape_nonempty.
    rewrite IH. reflexivity.
Qed.

(** A literal between the anchors matches the text itself and the text
    followed by one newline, nothing else. *)
Lemma match_literal_exact (u loc : string) (bol : bool) :
  match_here (literals u ++ [Eol]) bol loc =
  String.eqb loc u || String.eqb loc (u ++ String newline "").
Proof.
  revert loc bol. unfold literals.
  induction u as [|c u IH]; intros loc bol;
    cbn [list_ascii_of_string map app append].
  - cbn [match_here]. rewrite andb_true_r.
    destruct loc as [|d [|e loc]]; cbn; try reflexivity.
    + destruct (Ascii.eqb d newline); reflexivity.
    + destruct (Ascii.eqb d newline); reflexivity.
  - cbn [match_here item_ok]. destruct loc as [|d loc]; [reflexivity|].
    rewrite IH. cbn [String.eqb]. rewrite (Ascii.eqb_sym d c).
    destruct (Ascii.eqb c d); reflexivity.
Qed.

(** X1.  When the two baseline redirects are the same template once their
    probe paths are replaced by the placeholder (and the template does not
    end in a star), the redirect test of [scan] accepts exactly the template
    with the probed path put back, with or without a final newline. *)
Theorem same_template_accepts_only_itself
    (firstLoc firstPath secondLoc secondPath path loc : string) :
  replace firstPath placeholder firstLoc =
    replace secondPath placeholder secondLoc ->
  endswith (replace firstPath placeholder firstLoc) "*" = false ->
  let expected :=
    replace placeholder path (replace firstPath placeholder firstLoc) in
  re_match (replace placeholder (escape path)
              (generateRedirectRegExp firstLoc firstPath secondLoc secondPath))
           loc =
  Some (String.eqb loc expected || String.eqb loc (expected ++ String newline "")).
Proof.
  intros Hsame Hstar expected.
  assert (G : generateRedirectRegExp firstLoc firstPath secondLoc secondPath =
              "^" ++ escape (replace firstPath placeholder firstLoc) ++ "$").
  { unfold generateRedirectRegExp. rewrite <- Hsame.
    set (T := replace firstPath placeholder firstLoc) in *.
    rewrite regexp_front_same.
    replace (endswith ("^" ++ escape T) "*") with false.
    - now rewrite !append_assoc_str.
    - symmetry. rewrite endswith_char in *.
      destruct T as [|c T]; [reflexivity|].
      change ("^" ++ escape (String c T)) with ("^" ++ escape (String c T)).
      rewrite last_is_append_nonempty by apply escape_nonempty.
      now rewrite last_is_escape. }
  rewrite G, substituted_literal. unfold re_match.
  rewrite parse_literal. cbn [option_map match_here andb].
  rewrite match_literal_exact. reflexivity.
Qed.

Lemma same_template_accepts_only_itself_witness :
  let expected :=
    replace placeholder "cccc" (replace "aaaa" placeholder "/app/aaaa?next=a.b") in
  re_match (replace placeholder (escape "cccc")
              (generateRedirectRegExp "/app/aaaa?next=a.b" "aaaa"
                                      "/app/bbbb?next=a.b" "bbbb"))
           "/app/cccc?next=aXb" =
  Some (String.eqb "/app/cccc?next=aXb" expected ||
        String.eqb "/app/cccc?next=aXb" (expected ++ String newline "")).
Proof.
  refine (same_template_accepts_only_itself
            "/app/aaaa?next=a.b" "aaaa" "/app/bbbb?next=a.b" "bbbb" "cccc"
            "/app/cccc?next=aXb" _ _);
    vm_compute; reflexivity.
Defined.

(** *** Profiles produced by [setup] *)

Section Profiles.
Context {W : World}.

Lemma setup_ok_profile (self s : t) :
  setup self = Ok s ->
  (s = set_invalidStatus self (Some 404%Z)) \/
  (exists parser, dynamicParser s = Some parser) /\
  invalidStatus s <> Some 404%Z /\
  (redirectRegExp s = redirectRegExp self \/
   exists l1 p1 l2 p2, redirectRegExp s = Some (generateRedirectRegExp l1 p1 l2 p2)) /\
  (ratio s = ratio self \/ (ratio s <? ratio self)%float = true).
Proof.
  intros E.
  destruct (request 0 (firstPath self)) as [r1|e] eqn:H1.
  2:{ unfold setup in E. rewrite H1 in E. discriminate. }
  destruct (Z.eq_dec (status r1) 404) as [Hs|Hs].
  { left. rewrite (setup_404 self r1 H1 Hs) in E. now injection E as <-. }
  right.
  destruct (request 1 (secondPath self)) as [r2|e] eqn:H2.
  2:{ exfalso. unfold setup in E. rewrite H1 in E. cbn [rbind] in E.
      apply Z.eqb_neq in Hs. rewrite Hs in E.
      change (secondPath (set_invalidStatus self (Some (status r1))))
        with (secondPath self) in E.
      rewrite H2 in E. discriminate. }
  rewrite (setup_non404 self r1 r2 H1 H2 Hs) in E.
  destruct (body r1) as [b1|], (body r2) as [b2|]; try discriminate.
  cbv zeta in E.
  assert (Hinv : Some (status r1) <> Some 404%Z)
    by (intros X; injection X as X; contradiction).
  match type of E with (if ?c then _ else _) = _ => destruct c eqn:Hc end;
    injection E as <-;
    (split; [eexists; reflexivity|]);
    (split; [destruct (redirect r1) as [[|c1 l1]|], (redirect r2) as [[|c2 l2]|];
             cbn; exact Hinv|]);
    (split;
     [destruct (redirect r1) as [[|c1 l1]|], (redirect r2) as [[|c2 l2]|];
      cbn; first [left; reflexivity | right; do 4 eexists; reflexivity]|]).
  - right. cbn [ratio set_ratio]. exact Hc.
  - left. destruct (redirect r1) as [[|c1 l1]|], (redirect r2) as [[|c2 l2]|];
      reflexivity.
Qed.

(** X3.  On a profile returned by the constructor, nothing that [scan]
    does before it calls the comparator raises.  The redirect test returns:
    the pattern with the probed path substituted is always a valid pattern.
    Where [scan] needs no comparator (the baseline status is 404, the
    status of the response differs from the baseline, or the redirect test
    fails) it answers found or not found.  On every other profile a
    comparator is present, so that the call of [compareTo] is the only step
    of [scan] left that can raise. *)
Theorem scan_reaches_the_comparator
    (calibration suffix prefix : option string) (s : t)
    (path : string) (response : Response) :
  init calibration suffix prefix = Ok s ->
  (exists checked,
     redirectToInvalid s path response = Ok checked /\
     (checked = Some false -> exists found, scan s path response = Ok found)) /\
  (invalidStatus s = Some 404%Z \/
   Z_opt_eqb (invalidStatus s) (status response) = false ->
   exists found, scan s path response = Ok found) /\
  (invalidStatus s <> Some 404%Z ->
   exists parser, dynamicParser s = Some parser).
Proof.
  unfold init. intros E.
  assert (R : exists o, redirectToInvalid s path response = Ok o).
  { unfold redirectToInvalid.
    destruct (setup_ok_profile _ _ E)
      as [-> | (_ & _ & [Hrx | (l1 & p1 & l2 & p2 & Hrx)] & _)].
    - eexists. reflexivity.
    - rewrite Hrx. eexists. reflexivity.
    - rewrite Hrx.
      destruct (generateRedirectRegExp l1 p1 l2 p2) as [|c rx] eqn:G;
        [eexists; reflexivity|].
      destruct (redirect response) as [[|d loc]|]; try (eexists; reflexivity).
      rewrite <- G.
      destruct (generated_pattern_parses l1 p1 l2 p2 path (String d loc))
        as [m Hm].
      rewrite Hm. eexists. reflexivity. }
  split; [|split].
  - destruct R as [o Ho]. exists o. split; [exact Ho|].
    intros ->. unfold scan. rewrite Ho. cbn [rbind].
    destruct (Z_opt_eqb (invalidStatus s) (status response) &&
              (status response =? 404)%Z); [eexists; reflexivity|].
    destruct (negb (Z_opt_eqb (invalidStatus s) (status response)));
      eexists; reflexivity.
  - intros [H | H].
    + rewrite scan_404_target by exact H. eexists. reflexivity.
    + unfold scan. rewrite H. cbn [andb negb]. eexists. reflexivity.
  - intros Hinv.
    destruct (setup_ok_profile _ _ E) as [-> | (Hp & _)]; [|exact Hp].
    exfalso. apply Hinv. reflexivity.
Qed.

Lemma ltb_leb (x y : float) : (x <? y)%float = true -> (x <=? y)%float = true.
Proof.
  rewrite FloatAxioms.ltb_spec, FloatAxioms.leb_spec. unfold SFltb, SFleb.
  destruct (SFcompare (Prim2SF x) (Prim2SF y)) as [[| |]|];
    first [reflexivity | discriminate].
Qed.

(** X4.  Calibration never raises the threshold: on a profile returned by
    the constructor the threshold is at most 0.98 (and so is a number),
    whatever ratio the comparator measured. *)
Theorem threshold_at_most_098
    (calibration suffix prefix : option string) (s : t) :
  init calibration suffix prefix = Ok s ->
  (ratio s <=? 0.98)%float = true.
Proof.
  unfold init. intros E.
  destruct (setup_ok_profile _ _ E) as [-> | (_ & _ & _ & [H | H])].
  - vm_compute. reflexivity.
  - rewrite H. vm_compute. reflexivity.
  - apply ltb_leb. exact H.
Qed.

End Profiles.

Import ScannerSamples.

Lemma init_softServer : @init softServer None None None = Ok softProfile.
Proof. vm_compute. reflexivity. Qed.

Lemma scan_reaches_the_comparator_witness :
  let response := page 200 (Some "welcome") None 7 in
  (exists checked,
     redirectToInvalid softProfile "admin" response = Ok checked /\
     (checked = Some false ->
      exists found, scan softProfile "admin" response = Ok found)) /\
  (invalidStatus softProfile = Some 404%Z \/
   Z_opt_eqb (invalidStatus softProfile) (status response) = false ->
   exists found, scan softProfile "admin" response = Ok found) /\
  (invalidStatus softProfile <> Some 404%Z ->
   exists parser, dynamicParser softProfile = Some parser).
Proof.
  apply (@scan_reaches_the_comparator softServer None None None).
  vm_compute. reflexivity.
Defined.

Lemma threshold_at_most_098_witness :
  (ratio softProfile <=? 0.98)%float = true.
Proof.
  apply (@threshold_at_most_098 softServer None None None softProfile).
  vm_compute. reflexivity.
Defined.

(** *** The wildcard between the common prefix and the common suffix *)

Lemma rev_onto_append (s acc : string) :
  rev_onto s acc = reversed s ++ acc.
Proof.
  unfold reversed. revert acc. induction s as [|c s IH]; intros acc.
  - reflexivity.
  - cbn [rev_onto]. rewrite IH, (IH (String c "")).
    now rewrite append_assoc_str.
Qed.

Lemma regexp_front_common (a b acc : string) :
  regexp_front a b acc =
  acc ++ escape (common_prefix a b) ++ (if diverge a b then ".*" else "").
Proof.
  revert b acc. induction a as [|x a IH]; intros b acc.
  - cbn. now rewrite append_nil_r.
  - destruct b as [|y b]; [cbn; now rewrite append_nil_r|].
    cbn [regexp_front common_prefix diverge].
    destruct (Ascii.eqb x y); [|reflexivity].
    rewrite IH. cbn [escape]. now rewrite !append_assoc_str.
Qed.

Lemma regexp_back_common (a b e : string) :
  regexp_back a b e = escape (reversed (common_prefix a b)) ++ e.
Proof.
  revert b e. induction a as [|x a IH]; intros b e.
  - reflexivity.
  - destruct b as [|y b]; [reflexivity|].
    cbn [regexp_back common_prefix].
    destruct (Ascii.eqb x y); [|reflexivity].
    rewrite IH. unfold reversed at 2. cbn [rev_onto].
    rewrite rev_onto_append, escape_append. cbn [escape].
    now rewrite !append_assoc_str.
Qed.

Lemma match_literals_any (p : string) (r : list atom) (s : string) (bol : bool) :
  exists bol',
    match_here (literals p ++ r) bol (p ++ s) = match_here r bol' s.
Proof.
  unfold literals. destruct p as [|c p].
  - exists bol. reflexivity.
  - exists false. cbn [list_ascii_of_string map app append match_here item_ok].
    rewrite Ascii.eqb_refl. apply (match_literals p r s).
Qed.

(** [.*] runs over any text without a newline. *)
Lemma match_wildcard (mid s : string) (r : list atom) (bol : bool) :
  no_newline mid = true ->
  (forall b, match_here r b s = true) ->
  match_here (Star Dot :: r) bol (mid ++ s) = true.
Proof.
  intros Hmid Hr. revert bol. induction mid as [|c mid IH]; intros bol.
  - cbn [append]. destruct s; cbn [match_here]; rewrite Hr; reflexivity.
  - cbn [no_newline] in Hmid. apply andb_true_iff in Hmid as [Hc Hmid].
    cbn [append]. cbn [match_here]. cbn [item_ok]. rewrite Hc. cbn [andb].
    apply orb_true_iff. right. exact (IH Hmid false).
Qed.

(** X2.  When the two baseline templates part at some character, the
    redirect test of [scan] accepts every location made of their common
    prefix, any text without a newline, and their common suffix, with the
    probed path in the place of the placeholder. *)
Theorem wildcard_covers_the_gap
    (firstLoc firstPath secondLoc secondPath path mid : string) :
  let t1 := replace firstPath placeholder firstLoc in
  let t2 := replace secondPath placeholder secondLoc in
  diverge t1 t2 = true ->
  no_newline mid = true ->
  re_match (replace placeholder (escape path)
              (generateRedirectRegExp firstLoc firstPath secondLoc secondPath))
           (replace placeholder path (common_prefix t1 t2) ++ mid ++
            replace placeholder path (common_suffix t1 t2)) = Some true.
Proof.
  intros t1 t2 Hd Hmid.
  assert (G : generateRedirectRegExp firstLoc firstPath secondLoc secondPath =
              "^" ++ escape (common_prefix t1 t2) ++ ".*" ++
              escape (common_suffix t1 t2) ++ "$").
  { unfold generateRedirectRegExp. fold t1 t2.
    rewrite regexp_front_common, Hd.
    replace (endswith ("^" ++ escape (common_prefix t1 t2) ++ ".*") "*") with true.
    - rewrite regexp_back_common, append_nil_r. fold (common_suffix t1 t2).
      now rewrite !append_assoc_str.
    - symmetry.
      replace ("^" ++ escape (common_prefix t1 t2) ++ ".*")
        with (("^" ++ escape (common_prefix t1 t2) ++ ".") ++ "*")
        by now rewrite !append_assoc_str.
      apply endswith_append_char. }
  rewrite G, substituted_wildcard. unfold re_match.
  rewrite parse_wildcard. cbn [option_map match_here andb]. f_equal.
  destruct (match_literals_any (replace placeholder path (common_prefix t1 t2))
              (Star Dot :: literals (replace placeholder path (common_suffix t1 t2))
                 ++ [Eol])
              (mid ++ replace placeholder path (common_suffix t1 t2)) true)
    as [bol' ->].
  apply match_wildcard; [assumption|].
  intros b. rewrite match_literal_exact, String.eqb_refl. reflexivity.
Qed.

Lemma wildcard_covers_the_gap_witness :
  re_match (replace placeholder (escape "cccc")
              (generateRedirectRegExp "/e1/aaaa/login" "aaaa"
                                      "/e2/bbbb/login" "bbbb"))
           (replace placeholder "cccc"
              (common_prefix "/e1/DIRSEARCH_PATH/login" "/e2/DIRSEARCH_PATH/login")
            ++ "77" ++
            replace placeholder "cccc"
              (common_suffix "/e1/DIRSEARCH_PATH/login" "/e2/DIRSEARCH_PATH/login"))
  = Some true.
Proof.
  apply (wildcard_covers_the_gap "/e1/aaaa/login" "aaaa" "/e2/bbbb/login" "bbbb"
           "cccc" "77"); reflexivity.
Defined.

End ScannerFacts.

Module ControllerFacts.
Import PyStr Controller ControllerFixtures.

(** *** Seeding the queue *)

Lemma fold_put (l : list string) (s : State) :
  directories (fold_left (fun s subdir => put subdir s) l s) =
  (directories s ++ l)%list.
Proof.
  revert s. induction l as [|x l IH]; intros s; cbn [fold_left].
  - now rewrite app_nil_r.
  - rewrite IH. cbn [put directories]. now rewrite <- app_assoc.
Qed.

(** The queue receives every supplied scan-subdirectory and then, always,
    the root directory [""]. *)
Lemma seedDirectories_queue (cfg : Settings) (s : State) :
  directories (seedDirectories cfg s) =
  (directories s ++ scanSubdirs cfg ++ [""])%list.
Proof.
  unfold seedDirectories. cbn [put directories].
  rewrite fold_put. now rewrite <- app_assoc.
Qed.

(** C5 on the input [scanSubdirs = ["admin/"]]: the queue holds two
    entries, [admin/] and then the root [""], while the job counter
    announces one job. *)
Lemma seedDirectories_admin :
  directories (seedDirectories (with_scanSubdirs ["admin/"] plain)
                 (targetStart "http://example.com:80" "/")) = ["admin/"; ""] /\
  initialAllJobs (with_scanSubdirs ["admin/"] plain) = 1%Z.
Proof. split; reflexivity. Qed.

(** *** Deep recursion *)

(** C6 as the claim words it fails: in deep mode, from the root directory
    and with nothing excluded, [a/b/c] puts two directories in the queue,
    and [a/b/c/] is not one of them. *)
Lemma deep_mode_skips_the_leaf :
  deep_recursive (with_recursion false true false plain) = true /\
  currentDirectory (targetStart "http://example.com:80" "/") = "" /\
  excludeSubdirs (with_recursion false true false plain) = [] /\
  directories (exec (addDirectory (with_recursion false true false plain) "a/b/c")
                 (targetStart "http://example.com:80" "/")) = ["a/"; "a/b/"] /\
  mem "a/b/c/"
    (directories (exec (addDirectory (with_recursion false true false plain) "a/b/c")
                    (targetStart "http://example.com:80" "/"))) = false.
Proof. repeat split. Qed.

(** C6, as the code has it.  In deep mode without forced recursion, from
    the root directory and with nothing excluded, the candidates of [a/b/c]
    are the two directories [a/] and [a/b/], one per slash of the path, each
    then passing the checks of the loop; on a target with no
    scan-subdirectory, an empty done-set and no depth cap both are enqueued,
    and the path [a/b/c/] enqueues the three prefixes [a/], [a/b/] and
    [a/b/c/]. *)
Theorem deep_mode_prefixes (cfg : Settings) (s : State) :
  deep_recursive cfg = true ->
  force_recursive cfg = false ->
  excludeSubdirs cfg = [] ->
  currentDirectory s = "" ->
  addDirectory cfg "a/b/c" s =
    (let (s', added) := fold_left (addOne cfg) ["a/"; "a/b/"] (s, false) in
     (Ok added, s')) /\
  (scanSubdirs cfg = [] -> doneDirs s = [] -> recursion_depth cfg = None ->
   addDirectory cfg "a/b/c" s = (Ok true, enqueue "a/b/" (enqueue "a/" s)) /\
   addDirectory cfg "a/b/c/" s =
     (Ok true, enqueue "a/b/c/" (enqueue "a/b/" (enqueue "a/" s)))).
Proof.
  intros Hd Hf He Hc.
  destruct cfg as [? ? ? ? ? ? ? ? ? ? rec ? ? ? ? ? ? ? ? ? ?].
  destruct s. cbn in Hd, Hf, He, Hc. subst.
  split.
  - unfold addDirectory, excluded, candidateDirs, leafDirs.
    cbn [deep_recursive force_recursive excludeSubdirs Controller.recursive
         currentDirectory existsb].
    destruct rec; reflexivity.
  - intros Hs Hdone Hdepth. cbn in Hs, Hdone, Hdepth. subst.
    split; destruct rec; reflexivity.
Qed.

Lemma deep_mode_prefixes_witness :
  addDirectory (with_recursion false true false plain) "a/b/c"
      (targetStart "http://example.com:80" "/") =
    (let (s', added) :=
       fold_left (addOne (with_recursion false true false plain)) ["a/"; "a/b/"]
                 (targetStart "http://example.com:80" "/", false) in
     (Ok added, s')) /\
  (scanSubdirs (with_recursion false true false plain) = [] ->
   doneDirs (targetStart "http://example.com:80" "/") = [] ->
   recursion_depth (with_recursion false true false plain) = None ->
   addDirectory (with_recursion false true false plain) "a/b/c"
       (targetStart "http://example.com:80" "/") =
     (Ok true, enqueue "a/b/" (enqueue "a/" (targetStart "http://example.com:80" "/"))) /\
   addDirectory (with_recursion false true false plain) "a/b/c/"
       (targetStart "http://example.com:80" "/") =
     (Ok true, enqueue "a/b/c/" (enqueue "a/b/"
                 (enqueue "a/" (targetStart "http://example.com:80" "/"))))).
Proof.
  apply (deep_mode_prefixes (with_recursion false true false plain)
           (targetStart "http://example.com:80" "/"));
    reflexivity.
Defined.

(** With forced recursion on top of deep mode the leaf joins the two
    prefixes. *)
Lemma deep_and_forced_prefixes :
  addDirectory (with_recursion false true true plain) "a/b/c"
    (targetStart "http://example.com:80" "/") =
  (Ok true,
   enqueue "a/b/c/" (enqueue "a/b/" (enqueue "a/"
     (targetStart "http://example.com:80" "/")))).
Proof. reflexivity. Qed.

(** *** The done-set *)

Lemma mem_In (x : string) (l : list string) : mem x l = true <-> In x l.
Proof.
  unfold mem. rewrite existsb_exists. split.
  - intros (y & Hy & E). apply String.eqb_eq in E. now subst.
  - intros H. exists x. split; [assumption | apply String.eqb_refl].
Qed.

Lemma mem_app (x : string) (l1 l2 : list string) :
  mem x (l1 ++ l2) = mem x l1 || mem x l2.
Proof. unfold mem. apply existsb_app. Qed.

Lemma addOne_cases (cfg : Settings) (s : State) (b : bool) (dir : string) :
  addOne cfg (s, b) dir =
  if skips cfg s dir then (s, b) else (enqueue dir s, true).
Proof.
  unfold addOne, skips.
  destruct (mem dir (scanSubdirs cfg)); [reflexivity|].
  destruct (mem dir (doneDirs s)); [reflexivity|].
  destruct (tooDeep cfg dir); reflexivity.
Qed.

Lemma skips_enqueue (cfg : Settings) (s : State) (d dir : string) :
  skips cfg (enqueue d s) dir = skips cfg s dir || String.eqb dir d.
Proof.
  unfold skips. cbn [enqueue doneDirs]. rewrite mem_app. cbn [mem existsb].
  destruct (mem dir (scanSubdirs cfg)), (mem dir (doneDirs s)),
    (tooDeep cfg dir), (String.eqb dir d); reflexivity.
Qed.

(** What one run of the loop leaves behind: the queue and the done-set grew
    by the same directories, every directory of the list is now passed over,
    and nothing passed over before is accepted later. *)
Lemma loop_effect (cfg : Settings) (dirs : list string) (s : State) (b : bool) :
  exists added,
    let (s', b') := fold_left (addOne cfg) dirs (s, b) in
    directories s' = (directories s ++ added)%list /\
    doneDirs s' = (doneDirs s ++ added)%list /\
    allJobs s' = (allJobs s + Z.of_nat (List.length added))%Z /\
    currentDirectory s' = currentDirectory s /\
    (forall d, skips cfg s d = true -> skips cfg s' d = true) /\
    (forall d, In d dirs -> skips cfg s' d = true) /\
    (forall d, In d added -> In d dirs /\ skips cfg s d = false) /\
    (NoDup (doneDirs s) -> NoDup (doneDirs s')) /\
    (b' = true <-> b = true \/ added <> []).
Proof.
  revert s b. induction dirs as [|dir dirs IH]; intros s b.
  - exists []. cbn [fold_left]. rewrite !app_nil_r, Z.add_0_r.
    repeat split; auto; try contradiction.
    intros [H|H]; [assumption | contradiction].
  - cbn [fold_left]. rewrite addOne_cases.
    destruct (skips cfg s dir) eqn:Hsk.
    + destruct (IH s b) as [added IHa]. exists added.
      destruct (fold_left (addOne cfg) dirs (s, b)) as [s' b'].
      destruct IHa as (Hq & Hd & Hj & Hc & Hm & Hin & Had & Hnd & Hb).
      repeat split; auto.
      * intros d [<- | Hd']; auto.
      * right. now apply Had.
      * now apply Had.
      * apply Hb. * apply Hb.
    + destruct (IH (enqueue dir s) true) as [added IHa]. exists (dir :: added).
      destruct (fold_left (addOne cfg) dirs (enqueue dir s, true)) as [s' b'].
      destruct IHa as (Hq & Hd & Hj & Hc & Hm & Hin & Had & Hnd & Hb).
      cbn [enqueue directories doneDirs allJobs currentDirectory] in *.
      rewrite <- !app_assoc in *. cbn [app] in *.
      repeat split; auto.
      * rewrite Hj. cbn [List.length]. lia.
      * intros d Hd'. apply Hm. rewrite skips_enqueue, Hd'. reflexivity.
      * intros d [<- | Hd']; auto.
        apply Hm. rewrite skips_enqueue, String.eqb_refl. apply orb_true_r.
      * destruct H as [<- | H]; [now left | right; now apply Had].
      * destruct H as [<- | H]; [assumption|].
        destruct (Had d H) as [_ Hs]. rewrite skips_enqueue in Hs.
        now apply orb_false_iff in Hs.
      * intros Hn. apply Hnd.
        apply NoDup_app; [assumption | repeat constructor; intros [] | ].
        intros x Hx [<- | []].
        apply mem_In in Hx. unfold skips in Hsk.
        rewrite Hx in Hsk. rewrite orb_true_r in Hsk. discriminate.
      * intros _. right. discriminate.
      * intros _. apply Hb. now left.
Qed.

Lemma loop_skips_all (cfg : Settings) (dirs : list string) (s : State) (b : bool) :
  (forall d, In d dirs -> skips cfg s d = true) ->
  fold_left (addOne cfg) dirs (s, b) = (s, b).
Proof.
  induction dirs as [|dir dirs IH]; intros H; cbn [fold_left]; [reflexivity|].
  rewrite addOne_cases, (H dir (or_introl eq_refl)).
  apply IH. intros d Hd. apply H. now right.
Qed.

Lemma addDirectory_loop (cfg : Settings) (p : string) (s : State) :
  addDirectory cfg p s =
  (let (s', added) := fold_left (addOne cfg) (resolved cfg s p) (s, false) in
   (Ok added, s')).
Proof.
  unfold addDirectory, resolved.
  destruct (excluded cfg (strip_query p)); reflexivity.
Qed.

Lemma skips_grows (cfg : Settings) (s s' : State) (d : string) :
  incl (doneDirs s) (doneDirs s') ->
  skips cfg s d = true -> skips cfg s' d = true.
Proof.
  unfold skips. intros Hincl H.
  destruct (mem d (scanSubdirs cfg)); [reflexivity|].
  destruct (tooDeep cfg d); [apply orb_true_r|].
  cbn [orb] in *. rewrite orb_false_r in *.
  apply mem_In. apply Hincl. now apply mem_In.
Qed.

(** C7. Once [addDirectory] ran on a path, a later call whose candidate
    directories are among those of that call adds nothing, whatever was
    added to the done-set in between: it returns [False] and leaves the
    queue, the done-set and the job counter as they were.  The queue and the
    done-set grow by the same directories, none of them in the done-set
    before, so a done-set without repetition stays so. *)
Theorem addDirectory_idempotent (cfg : Settings) (s s2 : State) (p1 p2 : string) :
  let s1 := exec (addDirectory cfg p1) s in
  incl (doneDirs s1) (doneDirs s2) ->
  incl (resolved cfg s2 p2) (resolved cfg s p1) ->
  addDirectory cfg p2 s2 = (Ok false, s2) /\
  (NoDup (doneDirs s) -> NoDup (doneDirs s1)) /\
  exists added,
    directories s1 = (directories s ++ added)%list /\
    doneDirs s1 = (doneDirs s ++ added)%list /\
    (forall d, In d added -> ~ In d (doneDirs s)).
Proof.
  intros s1. subst s1. unfold exec.
  rewrite (addDirectory_loop cfg p1 s).
  destruct (loop_effect cfg (resolved cfg s p1) s false) as [added H].
  destruct (fold_left (addOne cfg) (resolved cfg s p1) (s, false)) as [s1 b1].
  destruct H as (Hq & Hd & _ & Hc & _ & Hin & Had & Hnd & _).
  cbn [snd]. intros Hdone Hincl. split; [|split].
  - rewrite addDirectory_loop, loop_skips_all; [reflexivity|].
    intros d Hd2. apply (skips_grows cfg s1 s2 d Hdone).
    apply Hin, Hincl, Hd2.
  - exact Hnd.
  - exists added. repeat split; auto.
    intros d Hd' Hdn. destruct (Had d Hd') as [_ Hs].
    apply mem_In in Hdn. unfold skips in Hs. rewrite Hdn in Hs.
    rewrite orb_true_r in Hs. discriminate.
Qed.

Lemma addDirectory_idempotent_witness :
  let s1 := exec (addDirectory forced "admin")
                 (targetStart "http://example.com:80" "/") in
  addDirectory forced "admin/" s1 = (Ok false, s1) /\
  (NoDup (doneDirs (targetStart "http://example.com:80" "/")) ->
   NoDup (doneDirs s1)) /\
  exists added,
    directories s1 =
      (directories (targetStart "http://example.com:80" "/") ++ added)%list /\
    doneDirs s1 =
      (doneDirs (targetStart "http://example.com:80" "/") ++ added)%list /\
    (forall d, In d added ->
               ~ In d (doneDirs (targetStart "http://example.com:80" "/"))).
Proof.
  apply (addDirectory_idempotent forced
           (targetStart "http://example.com:80" "/")
           (exec (addDirectory forced "admin")
                 (targetStart "http://example.com:80" "/"))
           "admin" "admin/").
  - intros d H. exact H.
  - intros d H. exact H.
Defined.

(** The first call of the witness enqueues [admin/] once; the second call,
    on [admin/], finds it in the done-set. *)
Lemma addDirectory_twice :
  exec (addDirectory forced "admin/")
       (exec (addDirectory forced "admin")
             (targetStart "http://example.com:80" "/")) =
  enqueue "admin/" (targetStart "http://example.com:80" "/").
Proof. reflexivity. Qed.

(** *** Recursion on a redirect *)

Section Redirects.
Context {L : Library}.
Variable cfg : Settings.

Lemma emit_frame (e : event) (s : State) :
  emit e s =
  (Ok tt,
   {| directories := directories s; doneDirs := doneDirs s;
      allJobs := allJobs s; currentJob := currentJob s; index := index s;
      currentDirectory := currentDirectory s; basePath := basePath s;
      baseUrl := baseUrl s; status_skip := status_skip s;
      exit_ := exit_ s;
     report_completed := report_completed s; events := (events s ++ [e])%list |}).
Proof. reflexivity. Qed.

(** [report] only writes to the output and the report, whether it returns
    or raises. *)
Lemma report_frame (p : Path) (a : bool) (s : State) :
  exists evs r,
    report cfg p a s =
    (r,
     {| directories := directories s; doneDirs := doneDirs s;
        allJobs := allJobs s; currentJob := currentJob s; index := index s;
        currentDirectory := currentDirectory s; basePath := basePath s;
        baseUrl := baseUrl s; status_skip := status_skip s;
        exit_ := exit_ s; report_completed := report_completed s;
        events := (events s ++
                   StatusReport (path p) (status p) (full_url cfg) a :: evs)%list |}).
Proof.
  unfold report, bind, get, emit, modify, ret, raise.
  destruct (replay_proxy cfg) as [[|c proxy]|];
    cbv beta iota;
    cbn [directories doneDirs allJobs currentJob index currentDirectory
         basePath baseUrl status_skip exit_ report_completed events];
    destruct (report_completed s);
    cbv beta iota;
    cbn [directories doneDirs allJobs currentJob index currentDirectory
         basePath baseUrl status_skip exit_ report_completed events];
    rewrite <- ?app_assoc; cbn [app]; do 2 eexists; reflexivity.
Qed.



End Redirects.



(** *** The skip-status signal *)

Section SkipStatus.
Context {L : Library}.
Variable cfg : Settings.



Lemma keeps_raise {A} (e : exn) : keeps_skip (@raise A e).
Proof. intros s. reflexivity. Qed.


Lemma keeps_emit (e : event) : keeps_skip (emit e).
Proof. intros s. reflexivity. Qed.


Lemma keeps_set_exit (b : bool) : keeps_skip (modify (set_exit b)).
Proof. intros s. reflexivity. Qed.












(** [self.urlList] *)
Variable urls : list string.





(** *** The callbacks do not look at the signal *)

Import ControllerNotions.














End SkipStatus.



(** *** addPort *)

Import Notions PyStrFacts ControllerNotions.

Lemma split_at_separator (c : ascii) (y rest : string) :
  count c y = 0 -> split c (y ++ String c rest) = y :: split c rest.
Proof.
  induction y as [|d y IH]; cbn [count append split].
  - now rewrite Ascii.eqb_refl.
  - destruct (Ascii.eqb d c); [discriminate|]. cbn. intros H.
    now rewrite (IH H).
Qed.

Lemma nth_error_set_nth (n : nat) (v : string) (l : list string) :
  n < List.length l -> nth_error (set_nth n v l) n = Some v.
Proof.
  revert n. induction l as [|x l IH]; intros n H; [cbn in H; lia|].
  destruct n; [reflexivity|]. cbn in *. apply IH. lia.
Qed.

Lemma set_nth_clean (c : ascii) (n : nat) (v : string) (l : list string) :
  count c v = 0 ->
  Forall (fun x => count c x = 0) l ->
  Forall (fun x => count c x = 0) (set_nth n v l).
Proof.
  intros Hv. revert n. induction l as [|x l IH]; intros n H;
    [destruct n; constructor|].
  inversion H; subst. destruct n; cbn; constructor; auto.
Qed.

Lemma set_nth_not_nil (n : nat) (v : string) (l : list string) :
  l <> [] -> set_nth n v l <> [].
Proof. destruct l, n; cbn; congruence. Qed.

Lemma contains_append_r (a b sub : string) :
  contains b sub = true -> contains (a ++ b) sub = true.
Proof.
  intros H. induction a as [|c a IH]; [exact H|].
  cbn [append contains]. rewrite IH. apply orb_true_r.
Qed.

Lemma Ok_inj {A} (a b : A) : Ok a = Ok b -> a = b.
Proof. intros H. now injection H. Qed.

(** X5.  [addPort] raises [IndexError], and nothing else, exactly on a URL
    with fewer than two slashes. *)
Theorem addPort_fails_iff (url : string) :
  (addPort url = Raise IndexError <-> count "/" url < 2) /\
  (forall e, addPort url = Raise e -> e = IndexError).
Proof.
  unfold addPort.
  pose proof (length_split "/" url) as Hlen.
  destruct (nth_error (split "/" url) 2) as [host|] eqn:E.
  - assert (2 < List.length (split "/" url))
      by (apply nth_error_Some; congruence).
    split.
    + split; [|lia]. destruct (negb (contains host ":")); discriminate.
    + intros e. destruct (negb (contains host ":")); discriminate.
  - apply nth_error_None in E. split.
    + split; [lia | reflexivity].
    + intros e He. now injection He as <-.
Qed.

(** X6.  What [addPort] returns has a colon in its host part, and [addPort]
    leaves it as it is: the port is added once. *)
Theorem addPort_idempotent (url u : string) :
  addPort url = Ok u ->
  addPort u = Ok u /\
  exists host, nth_error (split "/" u) 2 = Some host /\ contains host ":" = true.
Proof.
  unfold addPort at 1.
  destruct (nth_error (split "/" url) 2) as [host|] eqn:E; [|discriminate].
  destruct (contains host ":") eqn:Hc; unfold negb.
  - intros H. injection H as <-. split.
    + unfold addPort. rewrite E, Hc. reflexivity.
    + exists host. split; assumption.
  - cbv zeta. intros H. apply Ok_inj in H. subst u.
    set (port := if String.eqb (hd "" (split "/" url)) "http:" then ":80" else ":443").
    assert (Hport : count "/" port = 0 /\ contains port ":" = true)
      by (subst port; destruct (String.eqb _ _); split; reflexivity).
    destruct Hport as [Hp1 Hp2].
    assert (Hlen : 2 < List.length (split "/" url))
      by (apply nth_error_Some; congruence).
    assert (Hhost : count "/" host = 0).
    { pose proof (split_parts_clean "/" url) as Hall.
      rewrite Forall_forall in Hall. apply Hall.
      eapply nth_error_In. exact E. }
    assert (Hs : split "/" (join "/" (set_nth 2 (host ++ port) (split "/" url)))
                 = set_nth 2 (host ++ port) (split "/" url)).
    { apply split_join.
      - apply set_nth_not_nil, split_not_nil.
      - apply set_nth_clean; [|apply split_parts_clean].
        rewrite count_append. lia. }
    assert (Hn : nth_error (set_nth 2 (host ++ port) (split "/" url)) 2
                 = Some (host ++ port)) by now apply nth_error_set_nth.
    assert (Hin : contains (host ++ port) ":" = true)
      by now apply contains_append_r.
    split.
    + unfold addPort. rewrite Hs, Hn, Hin. reflexivity.
    + exists (host ++ port). rewrite Hs. split; assumption.
Qed.

Lemma addPort_idempotent_witness :
  addPort "http://example.com:80/login" = Ok "http://example.com:80/login" /\
  exists host,
    nth_error (split "/" "http://example.com:80/login") 2 = Some host /\
    contains host ":" = true.
Proof.
  apply (addPort_idempotent "http://example.com/login"
           "http://example.com:80/login").
  reflexivity.
Defined.

(** X7.  On a URL made of a scheme, two slashes, a host without colon and a
    path, [addPort] puts [:80] behind the host when the scheme is exactly
    [http:] and [:443] behind it for every other scheme, and changes nothing
    else. *)
Theorem addPort_default_port (scheme host rest : string) :
  count "/" scheme = 0 ->
  count "/" host = 0 ->
  contains host ":" = false ->
  addPort (scheme ++ "//" ++ host ++ "/" ++ rest) =
  Ok (scheme ++ "//" ++ host ++
      (if String.eqb scheme "http:" then ":80" else ":443") ++ "/" ++ rest).
Proof.
  intros Hs Hh Hc. unfold addPort.
  assert (E : split "/" (scheme ++ "//" ++ host ++ "/" ++ rest) =
              scheme :: "" :: host :: split "/" rest).
  { change (scheme ++ "//" ++ host ++ "/" ++ rest)
      with (scheme ++ String "/" ("" ++ String "/" (host ++ String "/" rest))).
    now rewrite !split_at_separator. }
  rewrite E. cbn [nth_error hd set_nth]. rewrite Hc. cbn [negb].
  f_equal. rewrite !join_cons by (try discriminate; apply split_not_nil).
  rewrite join_split.
  destruct (String.eqb scheme "http:"); cbn [append];
    now rewrite !append_assoc_str.
Qed.

Lemma addPort_default_port_witness :
  addPort ("https:" ++ "//" ++ "example.com" ++ "/" ++ "a/b") =
  Ok ("https:" ++ "//" ++ "example.com" ++
      (if String.eqb "https:" "http:" then ":80" else ":443") ++ "/" ++ "a/b").
Proof.
  apply (addPort_default_port "https:" "example.com" "a/b"); reflexivity.
Defined.

(** *** What addDirectory enqueues *)

Lemma grown_nil (s : State) : grown [] s = s.
Proof.
  destruct s. unfold grown. cbn. now rewrite !app_nil_r, Z.add_0_r.
Qed.

Lemma grown_enqueue (d : string) (added : list string) (s : State) :
  grown added (enqueue d s) = grown (d :: added) s.
Proof.
  unfold grown, enqueue.
  cbn [directories doneDirs allJobs currentJob index currentDirectory basePath
       baseUrl status_skip exit_ events].
  rewrite <- !app_assoc. cbn [app List.length].
  f_equal. lia.
Qed.

(** The loop of [addDirectory] as one step: the directories it accepts are
    appended, each once. *)
Lemma loop_grown (cfg : Settings) (dirs : list string) (s : State) (b : bool) :
  exists added,
    fold_left (addOne cfg) dirs (s, b) = (grown added s, b || negb (is_empty added)) /\
    NoDup added /\
    (forall d, In d added -> In d dirs /\ skips cfg s d = false).
Proof.
  revert s b. induction dirs as [|dir dirs IH]; intros s b; cbn [fold_left].
  - exists []. rewrite grown_nil. cbn. rewrite orb_false_r.
    repeat split; try constructor; contradiction.
  - rewrite addOne_cases. destruct (skips cfg s dir) eqn:Hsk.
    + destruct (IH s b) as (added & E & Hnd & Hin). exists added.
      rewrite E. repeat split; auto.
      * right. now apply Hin.
      * now apply Hin.
    + destruct (IH (enqueue dir s) true) as (added & E & Hnd & Hin).
      exists (dir :: added). rewrite E, grown_enqueue. cbn [is_empty negb orb].
      rewrite orb_true_r. repeat split.
      * constructor; [|assumption]. intros Hd.
        destruct (Hin dir Hd) as [_ Hs]. rewrite skips_enqueue in Hs.
        rewrite String.eqb_refl, orb_true_r in Hs. discriminate.
      * destruct H as [<- | H]; [now left | right; now apply Hin].
      * destruct H as [<- | H]; [assumption|].
        destruct (Hin d H) as [_ Hs]. rewrite skips_enqueue in Hs.
        now apply orb_false_iff in Hs.
Qed.

Lemma withSlash_ends (p : string) : endswith (withSlash p) "/" = true.
Proof.
  unfold withSlash. destruct (endswith p "/") eqn:E; [exact E|].
  apply endswith_append_char.
Qed.

Lemma resolved_trailing_slash (cfg : Settings) (s : State) (p d : string) :
  In d (resolved cfg s p) -> endswith d "/" = true.
Proof.
  unfold resolved. destruct (excluded cfg (strip_query p)); [intros []|].
  unfold candidateDirs. intros H. apply in_app_or in H as [H | H].
  - destruct (deep_recursive cfg); [|destruct H].
    unfold deepDirs in H. apply in_map_iff in H as (i & <- & _).
    apply endswith_append_char.
  - unfold leafDirs in H. destruct (force_recursive cfg).
    + destruct H as [<- | []]. apply withSlash_ends.
    + destruct (recursive cfg); cbn [andb] in H; [|destruct H].
      destruct (endswith _ "/") eqn:E; [|destruct H].
      destruct H as [<- | []]. exact E.
Qed.

Lemma addDirectory_grown (cfg : Settings) (p : string) (s : State) :
  exists added,
    addDirectory cfg p s = (Ok (negb (is_empty added)), grown added s) /\
    NoDup added /\
    incl added (resolved cfg s p).
Proof.
  rewrite addDirectory_loop.
  destruct (loop_grown cfg (resolved cfg s p) s false) as (added & E & Hnd & Hin).
  exists added. rewrite E. cbn [orb]. repeat split; [assumption|].
  intros d Hd. now apply Hin.
Qed.

Lemma accepted_dirs_ext (f g : string -> bool) (dirs seen1 seen2 : list string) :
  (forall x, f x || mem x seen1 = g x || mem x seen2) ->
  accepted_dirs f seen1 dirs = accepted_dirs g seen2 dirs.
Proof.
  revert seen1 seen2. induction dirs as [|d dirs IH]; intros seen1 seen2 H;
    cbn [accepted_dirs]; [reflexivity|].
  rewrite H. destruct (g d || mem d seen2); [now apply IH|].
  f_equal. apply IH. intros x. unfold mem. cbn [existsb]. fold (mem x seen1).
  fold (mem x seen2). specialize (H x).
  destruct (String.eqb x d); [now rewrite !orb_true_r|]. exact H.
Qed.

Lemma mem_cons (x d : string) (l : list string) :
  mem x (d :: l) = String.eqb x d || mem x l.
Proof. reflexivity. Qed.

Lemma accepted_dirs_In (f : string -> bool) (dirs seen : list string) (x : string) :
  In x (accepted_dirs f seen dirs) <->
  In x dirs /\ f x = false /\ mem x seen = false.
Proof.
  revert seen. induction dirs as [|d dirs IH]; intros seen; cbn [accepted_dirs].
  - split; [intros [] | intros [[] _]].
  - destruct (f d || mem d seen) eqn:E.
    + rewrite IH. split.
      * intros (H1 & H2 & H3). repeat split; auto. now right.
      * intros ([<- | H1] & H2 & H3); [|now repeat split].
        rewrite H2, H3 in E. discriminate.
    + apply orb_false_iff in E as [E1 E2]. cbn [In]. rewrite IH, mem_cons.
      split.
      * intros [<- | (H1 & H2 & H3)].
        -- repeat split; auto.
        -- apply orb_false_iff in H3 as [_ H3]. repeat split; auto.
      * intros ([<- | H1] & H2 & H3); [now left|].
        destruct (String.eqb x d) eqn:Ex.
        -- apply String.eqb_eq in Ex. left. now symmetry.
        -- right. split; [exact H1|]. split; [exact H2|]. exact H3.
Qed.

Lemma accepted_dirs_NoDup (f : string -> bool) (dirs seen : list string) :
  NoDup (accepted_dirs f seen dirs).
Proof.
  revert seen. induction dirs as [|d dirs IH]; intros seen; cbn [accepted_dirs].
  - constructor.
  - destruct (f d || mem d seen); [apply IH|].
    constructor; [|apply IH].
    intros H. apply accepted_dirs_In in H as (_ & _ & H).
    unfold mem in H. cbn [existsb] in H. now rewrite String.eqb_refl in H.
Qed.

Lemma NoDup_app_tail (a b : list string) : NoDup (a ++ b)%list -> NoDup b.
Proof.
  induction a as [|x a IH]; cbn [app]; [auto|].
  intros H. inversion H. auto.
Qed.

Lemma NoDup_app_apart (a b : list string) :
  NoDup (a ++ b)%list -> forall x, In x a -> In x b -> False.
Proof.
  induction a as [|y a IH]; cbn [app]; intros H x Ha Hb; [destruct Ha|].
  inversion H as [|? ? Hy Hnd]; subst.
  destruct Ha as [<- | Ha].
  - apply Hy. apply in_or_app. now right.
  - exact (IH Hnd x Ha Hb).
Qed.

(** The first directory accepted: the ones before it in the list were all
    passed over. *)
Lemma accepted_dirs_head (f : string -> bool) (dirs seen : list string)
    (x : string) (rest : list string) :
  accepted_dirs f seen dirs = x :: rest ->
  exists r1 r',
    dirs = (r1 ++ x :: r')%list /\
    (forall e, In e r1 -> f e || mem e seen = true) /\
    rest = accepted_dirs f (x :: seen) r'.
Proof.
  induction dirs as [|d dirs IH]; cbn [accepted_dirs]; [discriminate|].
  destruct (f d || mem d seen) eqn:E.
  - intros H. destruct (IH H) as (r1 & r' & -> & Hr1 & Hrest).
    exists (d :: r1), r'. split; [reflexivity|]. split; [|exact Hrest].
    intros e [<- | He]; [exact E | now apply Hr1].
  - intros H. injection H as -> <-. exists [], dirs.
    split; [reflexivity|]. split; [intros e [] | reflexivity].
Qed.

(** A directory accepted after [l1]: it stands in the list after the first
    occurrences of [l1], at its own first occurrence. *)
Lemma accepted_dirs_split (f : string -> bool) (l1 : list string) :
  forall (dirs seen : list string) (x : string) (rest : list string),
  accepted_dirs f seen dirs = (l1 ++ x :: rest)%list ->
  exists r1 r' seen',
    dirs = (r1 ++ x :: r')%list /\
    ~ In x r1 /\
    rest = accepted_dirs f seen' r' /\
    (forall e, In e r1 -> f e || mem e seen = true \/ In e l1).
Proof.
  induction l1 as [|y l1 IH]; intros dirs seen x rest H.
  - cbn [app] in H.
    assert (Hx : In x (accepted_dirs f seen dirs)) by (rewrite H; now left).
    apply accepted_dirs_In in Hx as (_ & Hf & Hm).
    destruct (accepted_dirs_head _ _ _ _ _ H) as (r1 & r' & -> & Hr1 & Hrest).
    exists r1, r', (x :: seen). split; [reflexivity|].
    split; [|split; [exact Hrest | intros e He; left; now apply Hr1]].
    intros Hin. specialize (Hr1 x Hin). rewrite Hf, Hm in Hr1. discriminate.
  - cbn [app] in H.
    assert (Hx : In x (accepted_dirs f seen dirs))
      by (rewrite H; right; apply in_or_app; right; now left).
    apply accepted_dirs_In in Hx as (_ & Hf & Hm).
    destruct (accepted_dirs_head _ _ _ _ _ H) as (q1 & q' & -> & Hq1 & Hrest).
    symmetry in Hrest.
    assert (Hxy : In x (accepted_dirs f (y :: seen) q'))
      by (rewrite Hrest; apply in_or_app; right; now left).
    apply accepted_dirs_In in Hxy as (_ & _ & Hmy).
    unfold mem in Hmy. cbn [existsb] in Hmy.
    apply orb_false_iff in Hmy as [Hne _].
    destruct (IH q' (y :: seen) x rest Hrest)
      as (r1 & r' & seen' & -> & Hnot & Hr & Hr1).
    exists (q1 ++ y :: r1)%list, r', seen'.
    split; [now rewrite <- app_assoc|].
    split; [|split; [exact Hr|]].
    + intros Hin. apply in_app_or in Hin as [Hin | [<- | Hin]].
      * specialize (Hq1 x Hin). rewrite Hf, Hm in Hq1. discriminate.
      * now rewrite String.eqb_refl in Hne.
      * contradiction.
    + intros e He. apply in_app_or in He as [He | [<- | He]].
      * left. now apply Hq1.
      * right. now left.
      * destruct (Hr1 e He) as [Hs | Hl]; [|right; now right].
        unfold mem in Hs. cbn [existsb] in Hs. fold (mem e seen) in Hs.
        destruct (String.eqb e y) eqn:Ey.
        -- apply String.eqb_eq in Ey. right. now left.
        -- left. exact Hs.
Qed.

(** Two accepted directories stand in the list in the order in which they
    were accepted, each at its first occurrence. *)
Lemma accepted_dirs_order (f : string -> bool) (dirs : list string)
    (d1 d2 : string) (l1 l2 l3 : list string) :
  accepted_dirs f [] dirs = (l1 ++ d1 :: l2 ++ d2 :: l3)%list ->
  exists r1 r2 r3,
    dirs = (r1 ++ d1 :: r2 ++ d2 :: r3)%list /\
    ~ In d1 r1 /\ ~ In d2 (r1 ++ d1 :: r2)%list.
Proof.
  intros H.
  pose proof (accepted_dirs_NoDup f dirs []) as Hnd. rewrite H in Hnd.
  assert (H2 : In d2 (accepted_dirs f [] dirs)).
  { rewrite H. apply in_or_app. right. right. apply in_or_app. right. now left. }
  apply accepted_dirs_In in H2 as (_ & Hf2 & _).
  destruct (accepted_dirs_split f l1 dirs [] d1 _ H)
    as (r1 & r' & seen' & -> & Hn1 & Hrest & Hr1).
  destruct (accepted_dirs_split f l2 r' seen' d2 l3 (eq_sym Hrest))
    as (r2 & r3 & _ & -> & Hn2 & _ & _).
  exists r1, r2, r3. split; [reflexivity|]. split; [exact Hn1|].
  intros Hin. apply in_app_or in Hin as [Hin | [E | Hin]].
  - destruct (Hr1 d2 Hin) as [Hs | Hl].
    + rewrite Hf2 in Hs. discriminate.
    + apply (NoDup_app_apart _ _ Hnd d2 Hl).
      right. apply in_or_app. right. now left.
  - subst d2. apply NoDup_app_tail in Hnd. inversion Hnd as [|? ? Hx _].
    apply Hx. apply in_or_app. right. now left.
  - contradiction.
Qed.

(** The loop of [addDirectory], with the directories it accepts named. *)
Lemma loop_accepted (cfg : Settings) (dirs : list string) (s : State) (b : bool) :
  fold_left (addOne cfg) dirs (s, b) =
  (grown (accepted_dirs (skips cfg s) [] dirs) s,
   b || negb (is_empty (accepted_dirs (skips cfg s) [] dirs))).
Proof.
  revert s b. induction dirs as [|d dirs IH]; intros s b;
    cbn [fold_left accepted_dirs].
  - rewrite grown_nil. cbn. now rewrite orb_false_r.
  - rewrite addOne_cases. cbn [mem existsb]. rewrite orb_false_r.
    destruct (skips cfg s d) eqn:Hsk; [apply IH|].
    rewrite IH, grown_enqueue.
    rewrite (accepted_dirs_ext (skips cfg (enqueue d s)) (skips cfg s) dirs [] [d]).
    + cbn [is_empty negb]. now rewrite orb_true_r.
    + intros x. rewrite skips_enqueue. cbn [mem existsb].
      now rewrite !orb_false_r.
Qed.

Lemma addDirectory_exact (cfg : Settings) (p : string) (s : State) :
  addDirectory cfg p s =
  (Ok (negb (is_empty (accepted_dirs (skips cfg s) [] (resolved cfg s p)))),
   grown (accepted_dirs (skips cfg s) [] (resolved cfg s p)) s).
Proof. rewrite addDirectory_loop, loop_accepted. reflexivity. Qed.

(** X8.  [addDirectory] never raises.  The directories it enqueues are the
    candidates of the path that are no scan-subdirectory, not in the
    done-set and not too deep, each at its first occurrence and in the order
    of the candidates.  They are appended in that order to the queue and to
    the done-set and counted in [allJobs]; no other field of the controller
    changes; and it returns [True] exactly when there is at least one. *)
Theorem addDirectory_accounting (cfg : Settings) (p : string) (s : State) :
  let added := accepted_dirs (skips cfg s) [] (resolved cfg s p) in
  addDirectory cfg p s = (Ok (negb (is_empty added)), grown added s) /\
  NoDup added /\
  (forall d, In d added <-> In d (resolved cfg s p) /\ skips cfg s d = false) /\
  (forall d1 d2 l1 l2 l3, added = (l1 ++ d1 :: l2 ++ d2 :: l3)%list ->
     exists r1 r2 r3, resolved cfg s p = (r1 ++ d1 :: r2 ++ d2 :: r3)%list /\
                      ~ In d1 r1 /\ ~ In d2 (r1 ++ d1 :: r2)%list).
Proof.
  cbv zeta. split; [apply addDirectory_exact|].
  split; [apply accepted_dirs_NoDup|].
  split.
  - intros d. rewrite accepted_dirs_In. cbn [mem existsb]. tauto.
  - apply accepted_dirs_order.
Qed.

(** X9.  Every directory [addDirectory] puts in the queue ends in a slash,
    is no scan-subdirectory, was not in the done-set, and has at most as
    many slashes as a configured (non-zero) recursion depth allows. *)
Theorem addDirectory_enqueues_only_allowed
    (cfg : Settings) (p : string) (s : State) (d : string) :
  In d (directories (exec (addDirectory cfg p) s)) ->
  ~ In d (directories s) ->
  endswith d "/" = true /\
  ~ In d (scanSubdirs cfg) /\
  ~ In d (doneDirs s) /\
  In d (doneDirs (exec (addDirectory cfg p) s)) /\
  (forall n, recursion_depth cfg = Some n -> n <> 0%Z ->
             (Z.of_nat (count "/" d) <= n)%Z).
Proof.
  unfold exec. rewrite addDirectory_loop.
  destruct (loop_grown cfg (resolved cfg s p) s false) as (added & E & _ & Hin).
  rewrite E. cbn [snd grown directories doneDirs].
  intros Hd Hnew. apply in_app_or in Hd as [Hd | Hd]; [contradiction|].
  destruct (Hin d Hd) as [Hres Hsk]. unfold skips in Hsk.
  apply orb_false_iff in Hsk as [Hsk Hdeep].
  apply orb_false_iff in Hsk as [Hsub Hdone].
  split; [eapply resolved_trailing_slash; eassumption|].
  split; [intros X; apply mem_In in X; congruence|].
  split; [intros X; apply mem_In in X; congruence|].
  split; [apply in_or_app; now right|].
  intros n Hn Hn0. unfold tooDeep in Hdeep. rewrite Hn in Hdeep.
  cbn [truthy_int] in Hdeep. apply Z.eqb_neq in Hn0. rewrite Hn0 in Hdeep.
  cbn [negb andb] in Hdeep. apply Z.ltb_ge in Hdeep. exact Hdeep.
Qed.

Lemma addDirectory_enqueues_only_allowed_witness :
  endswith "admin/" "/" = true /\
  ~ In "admin/" (scanSubdirs forced) /\
  ~ In "admin/" (doneDirs (targetStart "http://example.com:80" "/")) /\
  In "admin/" (doneDirs (exec (addDirectory forced "admin")
                           (targetStart "http://example.com:80" "/"))) /\
  (forall n, recursion_depth forced = Some n -> n <> 0%Z ->
             (Z.of_nat (count "/" "admin/") <= n)%Z).
Proof.
  apply (addDirectory_enqueues_only_allowed forced "admin"
           (targetStart "http://example.com:80" "/") "admin/").
  - left. reflexivity.
  - intros [].
Defined.

(** *** What the match callback may change *)

Section Callbacks.
Context {L : Library}.
Variable cfg : Settings.

Lemma effect_refl (s : State) : effect s s [] [] 0.
Proof.
  unfold effect. rewrite !app_nil_r, Z.add_0_r. cbn. rewrite Z.add_0_r.
  repeat split.
Qed.

Lemma effect_trans (s s1 s2 : State) (a1 a2 : list string)
    (e1 e2 : list event) (k1 k2 : Z) :
  effect s s1 a1 e1 k1 -> effect s1 s2 a2 e2 k2 ->
  effect s s2 (a1 ++ a2) (e1 ++ e2) (k1 + k2).
Proof.
  unfold effect.
  intros (A1 & A2 & A3 & A4 & A5 & A6 & A7 & A8 & A9 & A10)
         (B1 & B2 & B3 & B4 & B5 & B6 & B7 & B8 & B9 & B10).
  rewrite B1, B2, B3, B4, B5, B6, B7, B8, B9, B10.
  rewrite A1, A2, A3, A4, A5, A6, A7, A8, A9, A10.
  rewrite !app_assoc, length_app, Nat2Z.inj_add.
  repeat split; lia.
Qed.

Lemma steps_ret {A} (a : A) : steps 0 (ret a).
Proof. intros s. exists [], []. apply effect_refl. Qed.

Lemma steps_lift {A} (r : result A) : steps 0 (lift r).
Proof. intros s. exists [], []. apply effect_refl. Qed.

Lemma steps_get : steps 0 get.
Proof. intros s. exists [], []. apply effect_refl. Qed.

Lemma steps_emit (e : event) : steps 0 (emit e).
Proof.
  intros s. exists [], [e]. unfold effect. cbn.
  rewrite !app_nil_r, !Z.add_0_r. repeat split.
Qed.

Lemma steps_bump : steps 1 (modify bump_index).
Proof.
  intros s. exists [], []. unfold effect. cbn.
  rewrite !app_nil_r, !Z.add_0_r. repeat split.
Qed.

Lemma steps_set_status_skip (v : option Z) : steps 0 (modify (set_status_skip v)).
Proof.
  intros s. exists [], []. unfold effect. cbn.
  rewrite !app_nil_r, !Z.add_0_r. repeat split.
Qed.

Lemma steps_bind {A B} (k : Z) (m : M A) (f : A -> M B) :
  steps k m -> (forall a, steps 0 (f a)) -> steps k (bind m f).
Proof.
  intros Hm Hf s. unfold bind.
  destruct (Hm s) as (a1 & e1 & H1).
  destruct (m s) as [[a|e] s1]; cbn [snd] in *.
  - destruct (Hf a s1) as (a2 & e2 & H2).
    exists (a1 ++ a2)%list, (e1 ++ e2)%list.
    replace k with (k + 0)%Z by lia. eapply effect_trans; eassumption.
  - exists a1, e1. exact H1.
Qed.

Lemma steps_addDirectory (p : string) : steps 0 (addDirectory cfg p).
Proof.
  intros s. destruct (addDirectory_grown cfg p s) as (added & E & _ & _).
  rewrite E. exists added, []. unfold effect, grown. cbn.
  rewrite !app_nil_r, !Z.add_0_r. repeat split.
Qed.

Lemma steps_addRedirectDirectory (p : Path) :
  steps 0 (addRedirectDirectory cfg p).
Proof.
  unfold addRedirectDirectory.
  apply steps_bind; [apply steps_get | intros s0].
  apply steps_bind; [apply steps_lift | intros url].
  destruct (startswith url _); [apply steps_addDirectory | apply steps_ret].
Qed.

Lemma steps_report (p : Path) (a : bool) : steps 0 (report cfg p a).
Proof.
  intros s. destruct (report_frame cfg p a s) as (evs & r0 & E). rewrite E.
  exists [], (StatusReport (path p) (status p) (full_url cfg) a :: evs).
  unfold effect. cbn. rewrite !app_nil_r, !Z.add_0_r. repeat split.
Qed.

Lemma steps_matchCallback (p : Path) : steps 1 (matchCallback cfg p).
Proof.
  unfold matchCallback.
  apply steps_bind; [apply steps_bump | intros _].
  destruct (skipStatus cfg p); [apply steps_set_status_skip|].
  apply steps_bind; [apply steps_lift | intros ok].
  destruct (negb ok); [apply steps_ret|].
  apply steps_bind; [apply steps_lift | intros out].
  destruct out; [apply steps_ret|].
  apply steps_bind; [|intros a; apply steps_report].
  destruct (recursionEnabled cfg p); [|apply steps_ret].
  destruct (truthy_str _);
    [apply steps_addRedirectDirectory | apply steps_addDirectory].
Qed.

(** X10.  Whatever the result, and whether it returns or raises,
    [matchCallback] advances the counter of processed entries by one, only
    appends to the queue, to the done-set and to the output, counts every
    directory it enqueued in [allJobs], and leaves the current directory,
    the base path, the base URL, the job number and the exit flag alone. *)
Theorem matchCallback_only_appends (p : Path) (s : State) :
  exists added evs, effect s (exec (matchCallback cfg p) s) added evs 1.
Proof. apply steps_matchCallback. Qed.

(** X11.  A result whose status is 0, is one of the excluded statuses, or is
    missing from a configured include list, and is no skip-on-status code,
    is dropped without a trace: only the counter moves.  No filter that
    reads the body runs, so this holds for a response without a body too. *)
Theorem rejected_status_is_silent (p : Path) (s : State) :
  skipStatus cfg p = None ->
  status p = 0%Z \/
  In (status p) (excludeStatusCodes cfg) \/
  (includeStatusCodes cfg <> [] /\ ~ In (status p) (includeStatusCodes cfg)) ->
  matchCallback cfg p s = (Ok tt, bump_index s).
Proof.
  intros Hskip Hrej. unfold matchCallback. rewrite Hskip.
  assert (Hacc : accepted cfg p = Ok false).
  { unfold accepted, and_then, statusKept, statusIncluded. cbn [rbind].
    destruct Hrej as [H0 | [Hex | [Hne Hin]]].
    - rewrite H0. reflexivity.
    - assert (memZ (status p) (excludeStatusCodes cfg) = true).
      { unfold memZ. apply existsb_exists. exists (status p).
        split; [assumption | apply Z.eqb_refl]. }
      rewrite H. now rewrite andb_false_r.
    - destruct (negb (status p =? 0)%Z && negb (memZ (status p) (excludeStatusCodes cfg)));
        [|reflexivity].
      assert (Hm : memZ (status p) (includeStatusCodes cfg) = false).
      { destruct (memZ (status p) (includeStatusCodes cfg)) eqn:E; [|reflexivity].
        unfold memZ in E. apply existsb_exists in E as (x & Hx & Ex).
        apply Z.eqb_eq in Ex. subst x. contradiction. }
      rewrite Hm. destruct (includeStatusCodes cfg); [contradiction | reflexivity]. }
  unfold bind, modify, lift. rewrite Hacc. reflexivity.
Qed.

(** X12.  When no recursion mode is on, or the status of the result is
    missing from a configured recursion-status list, [matchCallback] leaves
    the queue, the done-set and the job count as they are. *)
Theorem no_recursion_no_enqueue (p : Path) (s : State) :
  recursionEnabled cfg p = false ->
  directories (exec (matchCallback cfg p) s) = directories s /\
  doneDirs (exec (matchCallback cfg p) s) = doneDirs s /\
  allJobs (exec (matchCallback cfg p) s) = allJobs s.
Proof.
  intros Hrec. unfold exec, matchCallback, bind, modify, lift.
  destruct (skipStatus cfg p); [repeat split|].
  destruct (accepted cfg p) as [[|]|e]; cbn [negb];
    [|repeat split|repeat split].
  destruct (excludedByContent cfg p) as [[|]|e];
    [repeat split| |repeat split].
  rewrite Hrec. unfold ret.
  destruct (report_frame cfg p false (bump_index s)) as (evs & r0 & E).
  rewrite E. repeat split.
Qed.

End Callbacks.

Lemma rejected_status_is_silent_witness :
  @matchCallback absolutePaths plain
    {| path := "x"; status := 0;
       response := ScannerFixtures.page 0 None None 0 |}
    (targetStart "http://example.com:80" "/") =
  (Ok tt, bump_index (targetStart "http://example.com:80" "/")).
Proof.
  apply (@rejected_status_is_silent absolutePaths plain).
  - reflexivity.
  - left. reflexivity.
Defined.

Lemma no_recursion_no_enqueue_witness :
  directories (exec (@matchCallback absolutePaths plain (found "admin/"))
                 (targetStart "http://example.com:80" "/")) =
    directories (targetStart "http://example.com:80" "/") /\
  doneDirs (exec (@matchCallback absolutePaths plain (found "admin/"))
              (targetStart "http://example.com:80" "/")) =
    doneDirs (targetStart "http://example.com:80" "/") /\
  allJobs (exec (@matchCallback absolutePaths plain (found "admin/"))
             (targetStart "http://example.com:80" "/")) =
    allJobs (targetStart "http://example.com:80" "/").
Proof.
  apply (@no_recursion_no_enqueue absolutePaths plain). reflexivity.
Defined.

(** *** The job loop *)

Section Jobs.
Context {L : Library}.
Variable cfg : Settings.
Variable urls : list string.

Lemma deliver_balance (c : callback) (s : State) :
  balance (deliver cfg c s) = balance s.
Proof.
  destruct c as [p | p | p msg]; cbn [deliver].
  - destruct (steps_matchCallback cfg p s) as (added & evs & E).
    unfold exec. destruct E as (E1 & _ & E3 & E4 & _).
    unfold balance. rewrite E1, E3, E4, length_app. lia.
  - reflexivity.
  - unfold errorCallback. destruct (exit_on_error cfg); reflexivity.
Qed.

Lemma answer_balance (option : string) (s : State) :
  balance (snd (answer urls option s)) = balance s.
Proof.
  unfold answer. cbv zeta.
  repeat match goal with
         | |- context [if ?c then _ else _] => destruct c
         end; reflexivity.
Qed.

Lemma step_balance (ph : phase) (s : State) (o : observation) :
  balance (snd (step cfg urls ph s o)) = balance s.
Proof.
  destruct ph, o as [c | [|] elapsed | | | | option |]; cbn [step snd];
    try reflexivity; try apply deliver_balance; try apply answer_balance.
  destruct (truthy_int (status_skip s)); [reflexivity|].
  destruct (timedOut cfg elapsed); reflexivity.
Qed.

Lemma run_balance (obs : list observation) (ph : phase) (s : State) :
  balance (snd (run cfg urls ph s obs)) = balance s.
Proof.
  revert ph s. induction obs as [|o obs IH]; intros ph s; cbn [run].
  - reflexivity.
  - pose proof (step_balance ph s o) as H.
    destruct (step cfg urls ph s o) as [ph' s1]. cbn [snd] in H.
    now rewrite IH.
Qed.

Lemma processPaths_balance (obs : list observation) (s s' : State) (r : result unit) :
  processPaths cfg urls obs s = Some (r, s') -> balance s' = balance s.
Proof.
  unfold processPaths. pose proof (run_balance obs Polling s) as H.
  destruct (run cfg urls Polling s obs) as [[| | | |r0] s1]; try discriminate.
  intros E. injection E as <- <-. exact H.
Qed.

Lemma start_job_balance (dir : string) (rest : list string) (s : State) :
  directories s = dir :: rest ->
  balance (start_job dir rest s) = balance s.
Proof.
  intros H. unfold balance, start_job. cbn. rewrite H. cbn [List.length]. lia.
Qed.

Lemma closeReport_effect (s s' : State) (r : result unit) :
  closeReport s = (r, s') ->
  balance s' = balance s /\ directories s' = directories s /\
  status_skip s' = status_skip s /\
  (r = Ok tt \/ r = Raise AttributeError) /\
  (r = Ok tt ->
   report_completed s' = None /\
   events s' = (events s ++ [ReportCompleted; UpdateReport])%list).
Proof.
  unfold closeReport. destruct (report_completed s); intros E;
    injection E as <- <-.
  - split; [reflexivity|]. split; [reflexivity|]. split; [reflexivity|].
    split; [now left|]. intros _. split; [reflexivity|].
    cbn. now rewrite <- app_assoc.
  - split; [reflexivity|]. split; [reflexivity|]. split; [reflexivity|].
    split; [now right | discriminate].
Qed.

Lemma prepare_books (jobs : list job) (s s' : State) (r : result unit) :
  prepare cfg urls jobs s = Some (r, s') ->
  balance s' = balance s /\
  (r = Ok tt ->
   directories s' = [] /\
   report_completed s' = None /\
   exists evs, events s' = (evs ++ [ReportCompleted; UpdateReport])%list).
Proof.
  assert (Hend : forall s0, directories s0 = [] ->
            Some (closeReport s0) = Some (r, s') ->
            balance s' = balance s0 /\
            (r = Ok tt ->
             directories s' = [] /\ report_completed s' = None /\
             exists evs, events s' = (evs ++ [ReportCompleted; UpdateReport])%list)).
  { intros s0 Hq E. injection E as E.
    destruct (closeReport_effect _ _ _ E) as (Hb & Hd & _ & _ & Hok).
    split; [exact Hb|]. intros Hr. destruct (Hok Hr) as [Hrep Hev].
    split; [congruence|]. split; [exact Hrep|]. eexists. exact Hev. }
  revert s. induction jobs as [|j jobs IH]; intros s; cbn [prepare].
  - destruct (directories s) eqn:Hq; [|discriminate]. now apply Hend.
  - destruct (directories s) as [|dir rest] eqn:Hq; [now apply Hend|].
    match goal with |- context [Some (Raise RequestException, ?s0)] =>
      set (s1 := s0);
      assert (Hb : balance s1 = balance s)
        by (subst s1; cbn; apply (start_job_balance dir rest s Hq))
    end.
    destruct j as [|obs].
    + intros E. injection E as <- <-. split; [exact Hb | discriminate].
    + destruct (processPaths cfg urls obs s1) as [[[[]|e] s2]|] eqn:Hp;
        [| |discriminate].
      * intros E. destruct (IH s2 E) as [Hbal Hok].
        apply processPaths_balance in Hp. split; [congruence | exact Hok].
      * intros E. injection E as <- <-.
        apply processPaths_balance in Hp. split; [congruence | discriminate].
Qed.

(** X13.  [prepare] keeps the books: the jobs announced in [allJobs] less
    the jobs started less the jobs waiting in the queue is the same number
    when it ends as when it began, however it ends (normal return,
    skip-target interrupt, exit, [KeyboardInterrupt] or [EOFError] in the
    pause menu, [RequestException] of [fuzzer.start], [AttributeError] on a
    missing report); and when it returns normally the queue is empty, the report
    was marked completed and written last, and [self.report] is [None]. *)
Theorem prepare_accounting (jobs : list job) (s s' : State) (r : result unit) :
  prepare cfg urls jobs s = Some (r, s') ->
  balance s' = balance s /\
  (r = Ok tt ->
   directories s' = [] /\
   report_completed s' = None /\
   exists evs, events s' = (evs ++ [ReportCompleted; UpdateReport])%list).
Proof. apply prepare_books. Qed.







End Jobs.

Import ControllerSamples.

Lemma prepare_accounting_witness :
  balance rootDone = balance rootOnly /\
  (Ok tt = Ok tt ->
   directories rootDone = [] /\
   report_completed rootDone = None /\
   exists evs, events rootDone = (evs ++ [ReportCompleted; UpdateReport])%list).
Proof.
  apply (@prepare_accounting absolutePaths plain ["http://example.com/"]
           [Started [WaitReturns true 1]] rootOnly rootDone (Ok tt)).
  vm_compute. reflexivity.
Defined.


(** *** The list of targets *)

Lemma fromkeys_spec (seen urls : list string) :
  NoDup (fromkeys seen urls) /\
  (forall u, In u (fromkeys seen urls) <-> In u urls /\ ~ In u seen).
Proof.
  revert seen. induction urls as [|x urls IH]; intros seen; cbn [fromkeys].
  - split; [constructor|]. intros u. split; [intros [] | intros [[] _]].
  - destruct (mem x seen) eqn:E.
    + destruct (IH seen) as [Hnd Hin]. split; [assumption|].
      intros u. rewrite Hin. split.
      * intros [H1 H2]. split; [now right | assumption].
      * intros [[<- | H1] H2]; [|now split].
        apply mem_In in E. contradiction.
    + destruct (IH (x :: seen)) as [Hnd Hin]. split.
      * constructor; [|assumption]. intros H. apply Hin in H as [_ H].
        apply H. now left.
      * intros u. split.
        -- intros [<- | H].
           ++ split; [now left|]. intros H. apply mem_In in H. congruence.
           ++ apply Hin in H as [H1 H2]. split; [now right|].
              intros H. apply H2. now right.
        -- intros [[<- | H1] H2]; [now left|].
           destruct (String.eqb_spec x u) as [->|Hne]; [now left|].
           right. apply Hin. split; [assumption|].
           intros [H | H]; [contradiction | contradiction].
Qed.

(** X15.  The list of targets holds every non-empty URL that was given, each
    once; and the URL a target is scanned under ends in a slash, one being
    added only when none is there. *)
Theorem target_list (urls : list string) :
  NoDup (urlList urls) /\
  (forall u, In u (urlList urls) <-> In u urls /\ u <> "") /\
  (forall u, endswith (targetUrl u) "/" = true /\
             targetUrl (targetUrl u) = targetUrl u).
Proof.
  unfold urlList. destruct (fromkeys_spec [] urls) as [Hnd Hin].
  split; [now apply NoDup_filter|]. split.
  - intros u. rewrite filter_In, Hin. split.
    + intros [[H _] Hne]. split; [assumption|].
      intros ->. discriminate.
    + intros [H Hne]. split; [split; [assumption | intros []]|].
      apply negb_true_iff. now apply String.eqb_neq.
  - intros u.
    assert (E : endswith (targetUrl u) "/" = true) by apply withSlash_ends.
    split; [exact E|]. unfold targetUrl at 1. now rewrite E.
Qed.

(** *** The status blacklists *)

Section BlacklistFiles.
Import Blacklists.
Context {F : Files} {L : Library}.
Variable cfg : Settings.
Variable extensions : list string.
Hypothesis from_files : blacklists cfg = getBlacklists extensions.

Lemma blacklist_of (st : Z) :
  dict_get st (blacklists cfg) =
  if memZ st [400%Z; 403%Z; 500%Z]
  then option_map (flat_map (entriesOf extensions)) (get_lines st)
  else None.
Proof.
  rewrite from_files. unfold getBlacklists. cbn [flat_map memZ existsb].
  destruct (Z.eqb_spec st 400) as [->|H4].
  { cbn [orb]. destruct (get_lines 400); cbn [app dict_get option_map];
      [reflexivity|].
    destruct (get_lines 403), (get_lines 500); reflexivity. }
  destruct (Z.eqb_spec st 403) as [->|H3].
  { cbn [orb]. destruct (get_lines 400), (get_lines 403);
      cbn [app dict_get option_map]; try reflexivity;
      destruct (get_lines 500); reflexivity. }
  destruct (Z.eqb_spec st 500) as [->|H5].
  { cbn [orb]. destruct (get_lines 400), (get_lines 403), (get_lines 500);
      reflexivity. }
  cbn [orb].
  apply Z.eqb_neq in H4, H3, H5. rewrite Z.eqb_sym in H4, H3, H5.
  destruct (get_lines 400), (get_lines 403), (get_lines 500);
    cbn [app dict_get]; rewrite ?H4, ?H3, ?H5; reflexivity.
Qed.

(** X16.  With the blacklists read by [getBlacklists]: a result of a status
    other than 400, 403 and 500, or of one whose file cannot be read, passes
    the blacklist test; and a path that stands on a line of the file of its
    status (the line being no comment and holding no keyword, its leading
    slash not counted) is dropped by [matchCallback] without a trace. *)
Theorem blacklisted_path_is_dropped (p : Path) (s : State) :
  skipStatus cfg p = None ->
  (~ In (status p) [400%Z; 403%Z; 500%Z] \/ get_lines (status p) = None ->
   notBlacklisted cfg p = Ok true) /\
  (forall lines line,
     In (status p) [400%Z; 403%Z; 500%Z] ->
     get_lines (status p) = Some lines ->
     In line lines ->
     isComment line = false ->
     hasKeyword (dropSlash line) = false ->
     path p = dropSlash line ->
     matchCallback cfg p s = (Ok tt, bump_index s)).
Proof.
  intros Hskip. split.
  - intros H. unfold notBlacklisted. rewrite blacklist_of.
    destruct (memZ (status p) [400%Z; 403%Z; 500%Z]) eqn:E; [|reflexivity].
    destruct H as [H | H]; [|now rewrite H].
    exfalso. apply H. unfold memZ in E.
    apply existsb_exists in E as (x & Hx & Ex).
    apply Z.eqb_eq in Ex. now subst.
  - intros lines line Hst Hlines Hin Hc Hk Hp.
    assert (Hmem : memZ (status p) [400%Z; 403%Z; 500%Z] = true).
    { unfold memZ. apply existsb_exists. exists (status p).
      split; [assumption | apply Z.eqb_refl]. }
    assert (Hentry : In (path p) (flat_map (entriesOf extensions) lines)).
    { apply in_flat_map. exists line. split; [assumption|].
      unfold entriesOf. rewrite Hc. cbv zeta. rewrite Hk. left. now symmetry. }
    assert (Hacc : accepted cfg p = Ok false).
    { unfold accepted, and_then, statusKept, statusIncluded, notBlacklisted.
      cbn [rbind]. rewrite blacklist_of, Hmem, Hlines. cbn [option_map].
      apply mem_In in Hentry. rewrite Hentry.
      destruct (flat_map (entriesOf extensions) lines);
        [discriminate Hentry|]. cbn [is_empty negb orb].
      repeat match goal with |- context [if ?c then _ else _] => destruct c end;
        reflexivity. }
    unfold matchCallback. rewrite Hskip.
    unfold bind, modify, lift. rewrite Hacc. reflexivity.
Qed.

End BlacklistFiles.

Lemma blacklisted_path_is_dropped_witness :
  (~ In (status (forbidden "server-status")) [400%Z; 403%Z; 500%Z] \/
   @Blacklists.get_lines oneBlacklist (status (forbidden "server-status")) = None ->
   @notBlacklisted blacklisting (forbidden "server-status") = Ok true) /\
  (forall lines line,
     In (status (forbidden "server-status")) [400%Z; 403%Z; 500%Z] ->
     @Blacklists.get_lines oneBlacklist (status (forbidden "server-status"))
       = Some lines ->
     In line lines ->
     Blacklists.isComment line = false ->
     Blacklists.hasKeyword (Blacklists.dropSlash line) = false ->
     path (forbidden "server-status") = Blacklists.dropSlash line ->
     @matchCallback absolutePaths blacklisting (forbidden "server-status") rootOnly =
     (Ok tt, bump_index rootOnly)).
Proof.
  apply (@blacklisted_path_is_dropped oneBlacklist absolutePaths blacklisting
           ["php"] eq_refl (forbidden "server-status") rootOnly).
  reflexivity.
Defined.

(** The path of the witness is on the second line of the 403 file. *)
Lemma server_status_is_dropped :
  @matchCallback absolutePaths blacklisting (forbidden "server-status") rootOnly =
  (Ok tt, bump_index rootOnly) /\
  events (exec (@matchCallback absolutePaths blacklisting (forbidden "index.php"))
            rootOnly) =
  [StatusReport "index.php" 403 false false; AddResult "index.php" 403; UpdateReport].
Proof. split; reflexivity. Qed.

End ControllerFacts.
